(** * Graphify-Data: the load / aggregate / render / write pipeline of [data.py]

    A shallow embedding of [src/data.py].  The script is a straight line of
    calls into pandas, pathlib and matplotlib; the embedding keeps the script's
    own functions ([load_csv], [choose_file_gui], [basic_eda],
    [sales_by_product], [monthly_sales_trend], [main]) one for one and gives
    the library calls they make the meaning the libraries document:

    - a [DataFrame] is an ordered list of named, typed columns;
    - [groupby(key)[col].sum()] drops rows whose key is missing, orders the
      groups by key and sums with [skipna];
    - [sort_values(ascending=False)] goes through [nargsort], on top of an
      [argsort] whose kind the script leaves at the default (not stable);
    - data frames live in a store and are passed by reference, so that
      [df = df.copy()] followed by [df["Date"] = ...] is an update of a fresh
      object and not of the caller's;
    - the file system, the printed lines and the charts shown are explicit
      state; [sys.exit] and uncaught exceptions end the run.

    Where the outcome of a library call rests on details the script does not
    fix, the call is a parameter of the embedding, and the properties hold
    for every value of it: the sort kind of [argsort] ([SortKind]), the
    text-to-date conversion of [pd.to_datetime] ([DateParser]), the rounded
    sum of a group of floats ([FloatSum]), what [pd.read_csv] makes of a file
    ([CsvReader]) and whether the plotting backend accepts a chart
    ([Renderer]).  One instance of each is given for the examples. *)

From Stdlib Require Import ZArith Lia List Sorted Permutation Ascii String.
From stdpp Require Import base decidable option list sorting gmap strings pretty.

Local Open Scope Z_scope.

(** ** Scalars *)

(** Signed 64-bit wrap-around, as numpy's [int64] arithmetic has it. *)
Definition wrap64 (z : Z) : Z := (z + 2 ^ 63) mod 2 ^ 64 - 2 ^ 63.

(** The fields of a [datetime64[ns]] value: civil date plus the nanoseconds
    elapsed within the day. *)
Record datetime := mkDatetime { year : Z; month : Z; day : Z; nanos : Z }.

(** A [Period] of frequency ["M"]: a calendar month. *)
Record period := mkPeriod { pyear : Z; pmonth : Z }.

(** One cell of a column.  [NA] stands for NaN, None and NaT alike.  Numbers
    are integers: an [int64] column holds them as such, and a [float64]
    column is represented as far as it holds integer-valued floats and NaN.
    No arithmetic is done on floats here (see [FloatSum]). *)
Inductive cell :=
  | NA
  | Num (z : Z)
  | Str (s : string)
  | Stamp (t : datetime)
  | Month (p : period).

Inductive dtype := int64 | float64 | object | datetime64 | period_M.

Record Series := mkSeries { sdtype : dtype; values : list cell }.

Global Instance datetime_eq_dec : EqDecision datetime.
Proof. solve_decision. Defined.
Global Instance period_eq_dec : EqDecision period.
Proof. solve_decision. Defined.
Global Instance cell_eq_dec : EqDecision cell.
Proof. solve_decision. Defined.
Global Instance dtype_eq_dec : EqDecision dtype.
Proof. solve_decision. Defined.
Global Instance Series_eq_dec : EqDecision Series.
Proof. solve_decision. Defined.

Definition notna (c : cell) : bool :=
  match c with NA => false | _ => true end.

Definition is_numeric_dtype (d : dtype) : bool :=
  match d with int64 | float64 => true | _ => false end.

(** The number a cell contributes to a sum; a missing cell contributes
    nothing ([skipna=True]). *)
Definition cell_num (c : cell) : Z :=
  match c with Num z => z | _ => 0 end.

(** The sum of the cells of an [int64] column or group: a running total with
    wrap-around. *)
Definition int64_sum (l : list cell) : Z :=
  foldl (fun acc c => wrap64 (acc + cell_num c)) 0 l.

(** The sum pandas gives for the numbers of a group of a [float64] column,
    taken in row order.  Every addition rounds, and the result depends on
    the order and on the summation scheme pandas uses; it is a parameter of
    the embedding of which nothing is assumed. *)
Class FloatSum := float64_sum : list Z → Z.

(** The per-group sum of [groupby(...).sum()], in the dtype of the column.
    Missing cells are skipped ([skipna]); only a [float64] column has
    any. *)
Definition sum_values `{FloatSum} (d : dtype) (l : list cell) : Z :=
  match d with
  | int64 => int64_sum l
  | _ => float64_sum (map cell_num (filter (fun c => notna c = true) l))
  end.

(** ** Ordering of group keys

    Group keys are compared within their own kind: numbers numerically, text
    by code units, timestamps and months chronologically.  A column read from
    a file never mixes kinds; the order between kinds (by constructor) only
    makes the comparison total. *)

Definition cell_rank (c : cell) : Z :=
  match c with NA => 0 | Num _ => 1 | Str _ => 2 | Stamp _ => 3 | Month _ => 4 end.

Definition period_leb (p q : period) : bool :=
  (pyear p <? pyear q) || ((pyear p =? pyear q) && (pmonth p <=? pmonth q)).

Definition datetime_leb (s t : datetime) : bool :=
  (year s <? year t) || ((year s =? year t) &&
  ((month s <? month t) || ((month s =? month t) &&
  ((day s <? day t) || ((day s =? day t) && (nanos s <=? nanos t)))))).

Definition cell_leb (a b : cell) : bool :=
  match a, b with
  | Num x, Num y => x <=? y
  | Str s, Str t => String.leb s t
  | Stamp s, Stamp t => datetime_leb s t
  | Month p, Month q => period_leb p q
  | _, _ => cell_rank a <=? cell_rank b
  end.

Definition cell_le (a b : cell) : Prop := cell_leb a b = true.

Global Instance cell_le_dec : RelDecision cell_le.
Proof. intros a b. unfold cell_le. apply _. Defined.

(** ** Grouped sums *)

(** The distinct non-missing keys, in ascending order ([sort=True],
    [dropna=True], the defaults of [groupby]). *)
Definition group_keys (keys : list cell) : list cell :=
  merge_sort cell_le (remove_dups (filter (fun k => notna k = true) keys)).

(** The cells of [vals] on the rows whose key is [k]. *)
Definition group_rows (k : cell) (keys vals : list cell) : list cell :=
  map snd (filter (fun r => fst r = k) (zip keys vals)).

(** [df.groupby(key)[col].sum()]: one entry per group, labelled by its key. *)
Definition groupby_sum `{FloatSum} (d : dtype) (keys vals : list cell)
  : list (cell * Z) :=
  map (fun k => (k, sum_values d (group_rows k keys vals))) (group_keys keys).

(** ** Sorting a labelled series by value *)

(** numpy's [argsort]: the positions of the items in ascending order of
    value.  The script never passes [kind=], so the algorithm is numpy's
    default, which promises no particular order among equal items; the
    embedding is therefore parametric in it. *)
Class SortKind := argsort : list Z → list nat.

(** What every kind guarantees: the positions are permuted, and reading the
    items through them gives a non-decreasing sequence. *)
Class SortKindSpec (K : SortKind) : Prop := {
  argsort_perm : ∀ l : list Z, argsort l ≡ₚ seq 0%nat (length l);
  argsort_sorted : ∀ l : list Z, Sorted Z.le (map (fun i => nth i l 0) (argsort l))
}.

(** Comparing two positions by the items they hold. *)
Definition le_at (l : list Z) (i j : nat) : Prop := nth i l 0 ≤ nth j l 0.

Global Instance le_at_dec l : RelDecision (le_at l).
Proof. intros i j. unfold le_at. apply _. Defined.

(** [kind="stable"]: merge sort of the positions by the item they hold.  One
    sort kind among those the contract admits, used where a concrete one is
    needed. *)
Definition stable_argsort : SortKind :=
  fun l => merge_sort (le_at l) (seq 0%nat (length l)).

(** Fancy indexing, [a[indexer]]. *)
Definition index_by {A} (d : A) (l : list A) (indexer : list nat) : list A :=
  map (fun i => nth i l d) indexer.

(** [pandas.core.sorting.nargsort], without its treatment of missing items:
    a sum is never missing.  For a descending sort the items and their
    positions are reversed, sorted ascending, and the outcome reversed. *)
Definition nargsort `{SortKind} (items : list Z) (ascending : bool) : list nat :=
  let idx := seq 0%nat (length items) in
  let non_nans := if ascending then items else reverse items in
  let non_nan_idx := if ascending then idx else reverse idx in
  let indexer := index_by 0%nat non_nan_idx (argsort non_nans) in
  if ascending then indexer else reverse indexer.

(** [Series.sort_values(ascending=...)] on a labelled series. *)
Definition sort_values `{SortKind} (ascending : bool) (s : list (cell * Z))
  : list (cell * Z) :=
  index_by (NA, 0) s (nargsort (map snd s) ascending).

(** ** Exceptions *)

Inductive exn :=
  | SystemExit (msg : string)
  | FileNotFoundError
  | IsADirectoryError
  | EmptyDataError
  | ParserError
  | DateParseError (text : string)
  | TypeError
  | AttributeError
  | KeyError
  | ValueError
  | IndexError
  | ReferenceError.

Inductive result (A : Type) :=
  | Ok (a : A)
  | Raise (e : exn).
Arguments Ok {A} a.
Arguments Raise {A} e.

Global Instance exn_eq_dec : EqDecision exn.
Proof. solve_decision. Defined.

(** Apply a fallible conversion to every element, stopping at the first
    failure. *)
Fixpoint collect {A B} (f : A → result B) (l : list A) : result (list B) :=
  match l with
  | [] => Ok []
  | x :: l' =>
      match f x with
      | Raise e => Raise e
      | Ok y =>
          match collect f l' with
          | Raise e => Raise e
          | Ok ys => Ok (y :: ys)
          end
      end
  end.

(** ** Dates *)

(** What [pd.to_datetime] makes of a text of a column: a date, a missing
    date (pandas reads ["NaT"] and a few other texts so), or an error.
    pandas guesses the format of a column from its first date and holds the
    other texts to it, so that the outcome for a text depends on the column
    it stands in: the parser is given the cells of the column along with the
    text.  Which texts are dates, and which error a text that is none
    raises, is pandas' business: the parser is a parameter of the
    embedding. *)
Class DateParser :=
  parse_datetime_string : list cell → string → result (option datetime).

Definition ns_per_day : Z := 86400 * 10 ^ 9.

(** The value numpy reserves for NaT in an [int64] of nanoseconds. *)
Definition iNaT : Z := - 2 ^ 63.

(** Days since 1970-01-01 to (year, month, day) in the proleptic Gregorian
    calendar. *)
Definition civil_from_days (days : Z) : Z * Z * Z :=
  let z := days + 719468 in
  let era := z / 146097 in
  let doe := z - era * 146097 in
  let yoe := (doe - doe / 1460 + doe / 36524 - doe / 146096) / 365 in
  let doy := doe - (365 * yoe + yoe / 4 - yoe / 100) in
  let mp := (5 * doy + 2) / 153 in
  let d := doy - (153 * mp + 2) / 5 + 1 in
  let m := if mp <? 10 then mp + 3 else mp - 9 in
  let y := yoe + era * 400 in
  (if m <=? 2 then y + 1 else y, m, d).

(** A number is read as nanoseconds since the epoch. *)
Definition datetime_of_ns (ns : Z) : datetime :=
  let '(y, m, d) := civil_from_days (ns / ns_per_day) in
  mkDatetime y m d (ns mod ns_per_day).

(** [pd.to_datetime] on one cell of a column, [errors="raise"]. *)
Definition to_datetime_cell `{DateParser} (column : list cell) (c : cell)
  : result cell :=
  match c with
  | NA => Ok NA
  | Str s =>
      match parse_datetime_string column s with
      | Ok (Some t) => Ok (Stamp t)
      | Ok None => Ok NA
      | Raise e => Raise e
      end
  | Num z => Ok (if z =? iNaT then NA else Stamp (datetime_of_ns z))
  | Stamp t => Ok (Stamp t)
  | Month _ => Raise TypeError
  end.

(** [pd.to_datetime(series)]: every cell converted, or the first failure
    raised. *)
Definition to_datetime `{DateParser} (s : Series) : result Series :=
  match collect (to_datetime_cell (values s)) (values s) with
  | Ok cells => Ok (mkSeries datetime64 cells)
  | Raise e => Raise e
  end.

(** The month a timestamp falls in: year and month are kept, the day and the
    time of day are dropped. *)
Definition month_of (c : cell) : cell :=
  match c with
  | Stamp t => Month (mkPeriod (year t) (month t))
  | _ => NA
  end.

(** [series.dt.to_period("M")]; the [.dt] accessor exists on datetime
    columns only. *)
Definition to_period_M (s : Series) : result Series :=
  match sdtype s with
  | datetime64 => Ok (mkSeries period_M (map month_of (values s)))
  | _ => Raise AttributeError
  end.

(** ** Data frames *)

(** Named columns, in order. *)
Record DataFrame := mkDataFrame { data : list (string * Series) }.

Global Instance DataFrame_eq_dec : EqDecision DataFrame.
Proof. solve_decision. Defined.

(** [df.columns]. *)
Definition columns (df : DataFrame) : list string := map fst (data df).

(** [name in df.columns]: equality of strings, character for character. *)
Definition has_column (df : DataFrame) (name : string) : bool :=
  existsb (String.eqb name) (columns df).

(** [{...}.issubset(df.columns)]. *)
Definition issubset (names : list string) (df : DataFrame) : bool :=
  forallb (has_column df) names.

(** [df[name]]; [None] stands for the [KeyError] of an absent column. *)
Definition getitem (df : DataFrame) (name : string) : option Series :=
  snd <$> find (fun c => String.eqb (fst c) name) (data df).

Fixpoint replace_column (name : string) (s : Series) (l : list (string * Series))
  : list (string * Series) :=
  match l with
  | [] => []
  | c :: l' =>
      if String.eqb (fst c) name then (name, s) :: l'
      else c :: replace_column name s l'
  end.

(** [df[name] = s]: an existing column is replaced where it stands, a new one
    is appended. *)
Definition setitem (df : DataFrame) (name : string) (s : Series) : DataFrame :=
  if has_column df name then mkDataFrame (replace_column name s (data df))
  else mkDataFrame (data df ++ [(name, s)]).

(** [len(df)]. *)
Definition len (df : DataFrame) : nat :=
  match data df with
  | [] => 0%nat
  | (_, s) :: _ => length (values s)
  end.

(** ** Paths ([pathlib.PurePosixPath], as in CPython 3.9 to 3.12) *)

Module Pathlib.

(** A parsed path: the root (empty for a relative path) and the components
    after it. *)
Record Path := mkPath { root : string; tail : list string }.

Definition sep : ascii := "/"%char.

(** [s.split("/")]. *)
Fixpoint split_sep (s : string) : list string :=
  match s with
  | EmptyString => [EmptyString]
  | String a s' =>
      if Ascii.eqb a sep then EmptyString :: split_sep s'
      else match split_sep s' with
           | h :: t => String a h :: t
           | [] => [String a EmptyString]
           end
  end.

Definition starts_with_sep (s : string) : bool :=
  match s with String a _ => Ascii.eqb a sep | EmptyString => false end.

(** [posixpath.splitroot], the root only: exactly two leading slashes are
    kept as they are, any other number of them is one. *)
Definition root_of (s : string) : string :=
  match s with
  | String a (String b rest) =>
      if Ascii.eqb a sep then
        if Ascii.eqb b sep && negb (starts_with_sep rest) then "//" else "/"
      else ""
  | String a EmptyString => if Ascii.eqb a sep then "/" else ""
  | EmptyString => ""
  end.

(** [Path(s)]: empty components and ["."] are dropped. *)
Definition of_string (s : string) : Path :=
  mkPath (root_of s)
    (filter (fun c => negb (String.eqb c "") && negb (String.eqb c ".") = true)
            (split_sep s)).

(** [path.name]: the final component, if any. *)
Definition name (p : Path) : string := List.last (tail p) "".

(** [s.rfind(c)]. *)
Fixpoint rfind (c : ascii) (s : string) : option nat :=
  match s with
  | EmptyString => None
  | String a s' =>
      match rfind c s' with
      | Some i => Some (S i)
      | None => if Ascii.eqb a c then Some 0%nat else None
      end
  end.

(** [s[:i]] and [s[i:]]. *)
Fixpoint str_take (i : nat) (s : string) : string :=
  match i, s with
  | S i', String a s' => String a (str_take i' s')
  | _, _ => EmptyString
  end.

Fixpoint str_drop (i : nat) (s : string) : string :=
  match i, s with
  | S i', String _ s' => str_drop i' s'
  | _, _ => s
  end.

(** Where the extension starts: the last dot of the name, unless it is the
    first or the last character. *)
Definition suffix_start (n : string) : option nat :=
  match rfind "."%char n with
  | Some i => if (0 <? i)%nat && (i <? String.length n - 1)%nat then Some i else None
  | None => None
  end.

(** [path.suffix]. *)
Definition suffix (p : Path) : string :=
  match suffix_start (name p) with
  | Some i => str_drop i (name p)
  | None => ""
  end.

(** [path.stem]. *)
Definition stem (p : Path) : string :=
  match suffix_start (name p) with
  | Some i => str_take i (name p)
  | None => name p
  end.

Fixpoint contains (c : ascii) (s : string) : bool :=
  match s with
  | EmptyString => false
  | String a s' => Ascii.eqb a c || contains c s'
  end.

(** [path.with_name(new)]. *)
Definition with_name (p : Path) (new : string) : result Path :=
  if String.eqb (name p) "" then Raise ValueError
  else if String.eqb new "" || contains sep new || String.eqb new "."
  then Raise ValueError
  else Ok (mkPath (root p) (removelast (tail p) ++ [new])).

(** [path.with_stem(new)]. *)
Definition with_stem (p : Path) (new : string) : result Path :=
  with_name p (new +:+ suffix p).

(** [path.parent]: the path without its final component. *)
Definition parent (p : Path) : Path := mkPath (root p) (removelast (tail p)).

(** [str(path)]. *)
Definition join_sep (l : list string) : string :=
  match l with
  | [] => ""
  | c :: l' => foldl (fun acc x => acc +:+ "/" +:+ x) c l'
  end.

Definition to_string (p : Path) : string :=
  let s := root p +:+ join_sep (tail p) in
  if String.eqb s "" then "." else s.

Global Instance Path_eq_dec : EqDecision Path.
Proof. solve_decision. Defined.

Global Instance Path_countable : Countable Path.
Proof.
  apply (inj_countable' (fun p => (root p, tail p)) (fun t => mkPath t.1 t.2)).
  by intros [].
Defined.

End Pathlib.

Export Pathlib(Path, Path_eq_dec, Path_countable).

(** ** Delimiter-separated files

    A file is taken as its grid of fields, line by line.  A field is the
    scalar it denotes (empty, a number, text); delimiters, quoting and the
    spelling of numbers are lexical matters left to pandas. *)

(** What [pd.read_csv(path)] makes of the content of a file: a table, or an
    error.  The path is part of the question, since pandas decompresses by
    extension.  The reader has many rules of its own (which line is the
    header, which lines are skipped, which fields label the rows, how
    repeated names are told apart, which dtype a column gets); the script
    relies on none of them, and the reader is a parameter of the
    embedding. *)
Class CsvReader := parse_csv : Path → list (list cell) → result DataFrame.

(** Row [i] of a frame, one cell per column. *)
Definition row (df : DataFrame) (i : nat) : list cell :=
  map (fun c => nth i (values (snd c)) NA) (data df).

(** [df.to_csv(path, index=...)], as a grid: the header line, then one
    record per row; with [index=True] every line starts with one more field,
    the row label. *)
Definition to_grid (df : DataFrame) (index : bool) : list (list cell) :=
  ((if index then [NA] else []) ++ map Str (columns df))
  :: map (fun i => (if index then [Num (Z.of_nat i)] else []) ++ row df i)
         (seq 0%nat (len df)).

(** ** The world the script runs in *)

Inductive node :=
  | Dir
  | File (content : list (list cell)).

Inductive plot_kind := bar | line.

(** What [Series.plot] and the [plt] calls after it ask the plotting backend
    to show. *)
Record chart := mkChart {
  kind : plot_kind;
  marker : option string;
  title : string;
  ylabel : string;
  xticks_rotation : Z;
  xticks_right_aligned : bool;
  plotted : list (cell * Z)
}.

(** Whether the plotting code accepts a chart or raises.  It raises on a
    series without entries, for one, and the conditions are pandas' and
    matplotlib's: the outcome is a parameter of the embedding.  (The window,
    and the wait for it to be closed, are outside the embedding.) *)
Class Renderer := render : chart → result unit.

(** A printed line is kept by what it reports, not by its layout. *)
Inductive message :=
  | Loaded (rows : nat) (file_name : string)
  | Columns (names : list string)
  | MissingValues (counts : list (string * nat))
  | SummaryStats (described : DataFrame)
  | SalesByProduct (agg : list (cell * Z))
  | Written (out : Path).

Inductive event :=
  | Print (m : message)
  | Show (c : chart).

(** Data frames are objects, held in a store and passed by reference. *)
Abbreviation ref := nat.

Record World := mkWorld {
  heap : gmap nat DataFrame;
  fs : gmap Path node;
  trace : list event
}.

(** ** Computations: state, and exceptions that end the run *)

Definition M (A : Type) : Type := World → result A * World.

Global Instance M_ret : MRet M := fun A a w => (Ok a, w).

Global Instance M_bind : MBind M := fun A B f m w =>
  match m w with
  | (Ok a, w') => f a w'
  | (Raise e, w') => (Raise e, w')
  end.

Definition raise {A} (e : exn) : M A := fun w => (Raise e, w).

(** [sys.exit(msg)]. *)
Definition sys_exit {A} (msg : string) : M A := raise (SystemExit msg).

Definition lift {A} (r : result A) : M A := fun w => (r, w).

Definition emit (e : event) : M unit := fun w =>
  (Ok tt, mkWorld (heap w) (fs w) (trace w ++ [e])).

Definition print (m : message) : M unit := emit (Print m).

(** [series.plot(...)], then the [plt] calls up to [plt.show()]: the chart
    is shown, unless the plotting code raises. *)
Definition plot `{Renderer} (c : chart) : M unit := fun w =>
  match render c with
  | Ok _ => emit (Show c) w
  | Raise e => (Raise e, w)
  end.

(** A new object in the store. *)
Definition alloc (df : DataFrame) : M ref := fun w =>
  let r := fresh (dom (heap w)) in
  (Ok r, mkWorld (<[r := df]> (heap w)) (fs w) (trace w)).

(** The object a reference points to; a reference is never dangling in a
    running script, the error case only makes the function total. *)
Definition deref (r : ref) : M DataFrame := fun w =>
  match heap w !! r with
  | Some df => (Ok df, w)
  | None => (Raise ReferenceError, w)
  end.

Definition assign (r : ref) (df : DataFrame) : M unit := fun w =>
  (Ok tt, mkWorld (<[r := df]> (heap w)) (fs w) (trace w)).

(** [df[name]] through a reference. *)
Definition get_column (r : ref) (name : string) : M Series :=
  df ← deref r;
  match getitem df name with
  | Some s => mret s
  | None => raise KeyError
  end.

(** [df[name] = s] through a reference: the object is updated in place. *)
Definition set_column (r : ref) (name : string) (s : Series) : M unit :=
  df ← deref r; assign r (setitem df name s).

(** [df.copy()]: a new object with the same contents. *)
Definition copy (r : ref) : M ref :=
  df ← deref r; alloc df.

(** [path.exists()]. *)
Definition path_exists (p : Path) : M bool := fun w =>
  (Ok (bool_decide (is_Some (fs w !! p))), w).

(** [pd.read_csv(path)]. *)
Definition read_csv `{CsvReader} (p : Path) : M ref := fun w =>
  match fs w !! p with
  | None => (Raise FileNotFoundError, w)
  | Some Dir => (Raise IsADirectoryError, w)
  | Some (File grid) =>
      match parse_csv p grid with
      | Ok df => alloc df w
      | Raise e => (Raise e, w)
      end
  end.

(** Writing a file: created or overwritten; a directory cannot be written. *)
Definition write_file (p : Path) (content : list (list cell)) : M unit := fun w =>
  match fs w !! p with
  | Some Dir => (Raise IsADirectoryError, w)
  | _ => (Ok tt, mkWorld (heap w) (<[p := File content]> (fs w)) (trace w))
  end.

(** [df.to_csv(path, index=...)]. *)
Definition to_csv (r : ref) (p : Path) (index : bool) : M unit :=
  df ← deref r; write_file p (to_grid df index).

(** ** The script *)

Section Script.
Context `{SortKind} `{DateParser} `{FloatSum} `{Renderer} `{CsvReader}.

(** 1. Data loading *)

Definition load_csv (path : Path) : M ref :=
  found ← path_exists path;
  if negb found then sys_exit ("File not found: " +:+ Pathlib.to_string path)
  else
    df ← read_csv path;
    d ← deref df;
    print (Loaded (len d) (Pathlib.name path));;
    mret df.

(** The file dialog answers with the chosen path, or with the empty string
    when it is dismissed. *)
Definition choose_file_gui (answer : string) : M Path :=
  if String.eqb answer "" then sys_exit " No file selected. Exiting."
  else mret (Pathlib.of_string answer).

(** 2. Exploration helpers *)

(** [df.isna().sum()]. *)
Definition isna_sum (d : DataFrame) : list (string * nat) :=
  map (fun c => (fst c, length (filter (fun x => notna x = false) (values (snd c)))))
      (data d).

(** [df.describe(include="all")] is printed as a whole and not computed
    here; it refuses a frame without columns. *)
Definition basic_eda (df : ref) : M unit :=
  d ← deref df;
  print (Columns (columns d));;
  print (MissingValues (isna_sum d));;
  match data d with
  | [] => raise ValueError
  | _ => print (SummaryStats d)
  end.

(** 3. Analysis examples *)

(** [df.groupby("Product")["Sales"].sum().sort_values(ascending=False)]. *)
Definition product_totals (product sales : Series) : list (cell * Z) :=
  sort_values false (groupby_sum (sdtype sales) (values product) (values sales)).

(** With a ["Sales"] column that is not numeric the call ends in a
    [TypeError], from the plot at the latest ("no numeric data to plot");
    what is printed before that point is not followed.  With numeric sales
    the totals are printed first and plotted next: an error of the plot
    comes after the printed totals. *)
Definition sales_by_product (df : ref) : M unit :=
  d ← deref df;
  if issubset ["Product"; "Sales"] d then
    product ← get_column df "Product";
    sales ← get_column df "Sales";
    if is_numeric_dtype (sdtype sales) then
      let agg := product_totals product sales in
      print (SalesByProduct agg);;
      plot (mkChart bar None "Sales by Product" "Total Sales" 45 true agg)
    else raise TypeError
  else mret tt.

(** [df.groupby("Month")["Sales"].sum()]. *)
Definition month_totals (months sales : Series) : list (cell * Z) :=
  groupby_sum (sdtype sales) (values months) (values sales).

(** The local name [df] is rebound to a copy before any column is assigned,
    so the two assignments update the copy.  As above, sales that are not
    numeric end the call in a [TypeError]. *)
Definition monthly_sales_trend (df : ref) : M unit :=
  d ← deref df;
  if issubset ["Date"; "Sales"] d then
    df ← copy df;
    date ← get_column df "Date";
    parsed ← lift (to_datetime date);
    set_column df "Date" parsed;;
    date ← get_column df "Date";
    months ← lift (to_period_M date);
    set_column df "Month" months;;
    months ← get_column df "Month";
    sales ← get_column df "Sales";
    if is_numeric_dtype (sdtype sales) then
      let trend := month_totals months sales in
      plot (mkChart line (Some "o") "Monthly Sales Trend" "Total Sales" 45 false trend)
    else raise TypeError
  else mret tt.

(** 4. Main entry point.  [file] is the [--file] argument when given,
    [answer] what the file dialog would return. *)
Definition main (file : option string) (answer : string) : M unit :=
  csv_path ← match file with
              | Some s => mret (Pathlib.of_string s)
              | None => choose_file_gui answer
              end;
  df ← load_csv csv_path;
  basic_eda df;;
  sales_by_product df;;
  monthly_sales_trend df;;
  out_path ← lift (Pathlib.with_stem csv_path (Pathlib.stem csv_path +:+ "_cleaned"));
  to_csv df out_path false;;
  print (Written out_path).

End Script.

(** ** Instances for the examples

    One value for each parameter, to run the script on sample data.  No
    property below depends on them. *)

(** Sums of floats: exact, which is what rounding gives as long as the
    numbers and their partial sums stay below [2 ^ 53] in magnitude. *)
Definition zsum (l : list Z) : Z := foldr Z.add 0 l.

Definition exact_sum : FloatSum := zsum.

(** Dates written [YYYY-MM-DD]. *)
Definition digit (a : ascii) : option Z :=
  let n := Z.of_nat (nat_of_ascii a) in
  if (48 <=? n) && (n <=? 57) then Some (n - 48) else None.

Definition is_leap (y : Z) : bool :=
  ((y mod 4 =? 0) && negb (y mod 100 =? 0)) || (y mod 400 =? 0).

Definition days_in_month (y m : Z) : Z :=
  if m =? 2 then (if is_leap y then 29 else 28)
  else if (m =? 4) || (m =? 6) || (m =? 9) || (m =? 11) then 30
  else 31.

Definition parse_iso (s : string) : option datetime :=
  match s with
  | String y1 (String y2 (String y3 (String y4 (String d1
      (String m1 (String m2 (String d2 (String a1 (String a2 EmptyString))))))))) =>
      if Ascii.eqb d1 "-" && Ascii.eqb d2 "-" then
        y1 ← digit y1; y2 ← digit y2; y3 ← digit y3; y4 ← digit y4;
        m1 ← digit m1; m2 ← digit m2; a1 ← digit a1; a2 ← digit a2;
        let y := 1000 * y1 + 100 * y2 + 10 * y3 + y4 in
        let m := 10 * m1 + m2 in
        let d := 10 * a1 + a2 in
        if (1 <=? m) && (m <=? 12) && (1 <=? d) && (d <=? days_in_month y m)
        then Some (mkDatetime y m d 0) else None
      else None
  | _ => None
  end.

(** The texts pandas reads as a missing date. *)
Definition nat_strings : list string := ["NaT"; "nat"; "NAT"; "nan"; "NaN"; "NAN"].

Definition is_nat_string (s : string) : bool :=
  existsb (String.eqb s) nat_strings.

(** The first date of a column, from which the format is guessed. *)
Fixpoint first_date_text (column : list cell) : option string :=
  match column with
  | [] => None
  | Str s :: column' => if is_nat_string s then first_date_text column' else Some s
  | _ :: column' => first_date_text column'
  end.

(** A parser that knows the one format.  A text that is no date raises a
    [ValueError] when the first date of the column has fixed the format
    (the text does not match it), and a [DateParseError] otherwise (the
    text cannot be parsed at all). *)
Definition iso_date : DateParser := fun column s =>
  if is_nat_string s then Ok None
  else
    match parse_iso s with
    | Some t => Ok (Some t)
    | None =>
        match first_date_text column ≫= parse_iso with
        | Some _ => Raise ValueError
        | None => Raise (DateParseError s)
        end
    end.

(** A plotting backend that accepts every chart with an entry.  Without
    entries a bar plot ends in an [IndexError] and a line plot in a
    [ValueError]. *)
Definition plain_renderer : Renderer := fun c =>
  match plotted c, kind c with
  | [], bar => Raise IndexError
  | [], line => Raise ValueError
  | _, _ => Ok tt
  end.

(** A reader for plain rectangular files.  pandas' reader does more than
    this one (row labels taken from rows longer than the header, repeated
    names told apart, boolean and unsigned columns, decompression by
    extension); the sample files need none of it. *)

Definition is_num (c : cell) : bool := match c with Num _ => true | _ => false end.

Definition is_int64 (c : cell) : bool :=
  match c with Num z => (- 2 ^ 63 <=? z) && (z <? 2 ^ 63) | _ => false end.

(** The dtype of a column: [int64] when every field is a number in range,
    [float64] when the fields are numbers or empty, [object] otherwise, and
    for a column without rows. *)
Definition infer_dtype (cells : list cell) : dtype :=
  match cells with
  | [] => object
  | _ =>
      if forallb is_int64 cells then int64
      else if forallb (fun c => is_num c || negb (notna c)) cells then float64
      else object
  end.

(** The name a header field gives its column. *)
Definition header_name (j : nat) (c : cell) : string :=
  match c with
  | Str s => s
  | Num z => pretty z
  | _ => "Unnamed: " +:+ pretty j
  end.

(** A line without any character. *)
Definition is_blank (r : list cell) : bool :=
  match r with [] | [NA] => true | _ => false end.

(** The first line that is not blank names the columns, every later line
    that is not blank is a row; a row that falls short of the header is
    padded with missing values, one that exceeds it is refused. *)
Definition read_grid (grid : list (list cell)) : result DataFrame :=
  match filter (fun r => is_blank r = false) grid with
  | [] => Raise EmptyDataError
  | header :: records =>
      if forallb (fun r => (length r <=? length header)%nat) records then
        Ok (mkDataFrame
              (imap (fun j h =>
                       let cells := map (fun r => nth j r NA) records in
                       (header_name j h, mkSeries (infer_dtype cells) cells))
                    header))
      else Raise ParserError
  end.

Definition plain_reader : CsvReader := fun _ grid => read_grid grid.

(** ** Vocabulary of the properties *)

(** [agg.sum()] on an aggregated series of dtype [int64]: the total of its
    values. *)
Definition series_total (agg : list (cell * Z)) : Z :=
  int64_sum (map (fun e => Num (snd e)) agg).

(** The cells of [vals] on the rows whose key is present. *)
Definition present_rows (keys vals : list cell) : list cell :=
  map snd (filter (fun r => notna (fst r) = true) (zip keys vals)).

(** Chronological order of months. *)
Definition period_le (p q : period) : Prop :=
  pyear p < pyear q ∨ (pyear p = pyear q ∧ pmonth p ≤ pmonth q).

(** Values in descending order: every entry is at least as large as all the
    entries after it. *)
Definition descending (agg : list (cell * Z)) : Prop :=
  StronglySorted (fun a b : Z => b ≤ a) (map snd agg).

(** The scalars a field of a file can denote. *)
Definition file_cell (c : cell) : bool :=
  match c with NA | Num _ | Str _ => true | _ => false end.

(** The path [main] settles on, unless the dialog is dismissed. *)
Definition chosen_path (file : option string) (answer : string) : option Path :=
  match file with
  | Some s => Some (Pathlib.of_string s)
  | None => if String.eqb answer "" then None else Some (Pathlib.of_string answer)
  end.

(** The chart [sales_by_product] shows for given totals. *)
Definition product_chart (agg : list (cell * Z)) : chart :=
  mkChart bar None "Sales by Product" "Total Sales" 45 true agg.

(** The chart [monthly_sales_trend] shows for given totals. *)
Definition trend_chart (trend : list (cell * Z)) : chart :=
  mkChart line (Some "o") "Monthly Sales Trend" "Total Sales" 45 false trend.

(** The months of a parsed date column, as [dt.to_period("M")] gives them. *)
Definition months_of (parsed : Series) : Series :=
  mkSeries period_M (map month_of (values parsed)).

(** The working copy [monthly_sales_trend] ends up with: the date column
    re-typed, the month column added. *)
Definition trend_frame (d : DataFrame) (parsed : Series) : DataFrame :=
  setitem (setitem d "Date" parsed) "Month" (months_of parsed).

(** [main] from the point where the path is known. *)
Definition run_on `{SortKind} `{DateParser} `{FloatSum} `{Renderer} `{CsvReader}
    (csv_path : Path) : M unit :=
  df ← load_csv csv_path;
  basic_eda df;;
  sales_by_product df;;
  monthly_sales_trend df;;
  out_path ← lift (Pathlib.with_stem csv_path (Pathlib.stem csv_path +:+ "_cleaned"));
  to_csv df out_path false;;
  print (Written out_path).

(** What [load_csv] and [basic_eda] print for a table. *)
Definition report (p : Path) (d : DataFrame) : list event :=
  [Print (Loaded (len d) (Pathlib.name p));
   Print (Columns (columns d));
   Print (MissingValues (isna_sum d));
   Print (SummaryStats d)].

(** The part of the run after the table is loaded and profiled. *)
Definition after_report `{SortKind} `{DateParser} `{FloatSum} `{Renderer}
    (p : Path) (df : ref) : M unit :=
  sales_by_product df;;
  monthly_sales_trend df;;
  out_path ← lift (Pathlib.with_stem p (Pathlib.stem p +:+ "_cleaned"));
  to_csv df out_path false;;
  print (Written out_path).

(** ASCII lower case, for telling apart names that differ in case only. *)
Definition lower_ascii (a : ascii) : ascii :=
  let n := nat_of_ascii a in
  if (65 <=? n)%nat && (n <=? 90)%nat then ascii_of_nat (n + 32) else a.

Fixpoint lower (s : string) : string :=
  match s with
  | EmptyString => EmptyString
  | String a s' => String (lower_ascii a) (lower s')
  end.

(** [c] is [n] up to the case of its letters, and is not [n]. *)
Definition case_variant (c n : string) : Prop := c ≠ n ∧ lower c = lower n.

(** ** Sample data *)

Definition sales_csv : Path := Pathlib.of_string "data/sales.csv".

Definition sample_grid : list (list cell) :=
  [[Str "Product"; Str "Sales"; Str "Date"];
   [Str "A"; Num 10; Str "2023-01-05"];
   [Str "B"; Num 5; Str "2023-01-20"];
   [Str "A"; Num 3; Str "2023-02-01"]].

Definition sample_frame : DataFrame :=
  mkDataFrame
    [("Product", mkSeries object [Str "A"; Str "B"; Str "A"]);
     ("Sales", mkSeries int64 [Num 10; Num 5; Num 3]);
     ("Date", mkSeries object [Str "2023-01-05"; Str "2023-01-20"; Str "2023-02-01"])].

(** A world with one file and nothing loaded yet. *)
Definition sample_world : World :=
  mkWorld ∅ {[ sales_csv := File sample_grid ]} [].

(** A world whose store holds the sample table. *)
Definition loaded_world : World :=
  mkWorld {[ 0%nat := sample_frame ]} {[ sales_csv := File sample_grid ]} [].

(** A table that names its columns in lower case. *)
Definition lower_case_frame : DataFrame :=
  mkDataFrame
    [("product", mkSeries object [Str "A"; Str "B"]);
     ("sales", mkSeries int64 [Num 10; Num 5]);
     ("date", mkSeries object [Str "2023-01-05"; Str "2023-01-20"])].

Definition lower_case_world : World :=
  mkWorld {[ 0%nat := lower_case_frame ]} ∅ [].

(** The world after a complete run on the sample file, with the instances
    for the examples. *)
Definition sample_result : World :=
  (@main stable_argsort iso_date exact_sum plain_renderer plain_reader
     (Some "data/sales.csv") "" sample_world).2.

(** A table with a row that has neither product nor date. *)
Definition gap_frame : DataFrame :=
  mkDataFrame
    [("Product", mkSeries object [Str "A"; NA]);
     ("Sales", mkSeries int64 [Num 10; Num 5]);
     ("Date", mkSeries object [Str "2023-01-05"; NA])].

Definition gap_world : World := mkWorld {[ 0%nat := gap_frame ]} ∅ [].

(** A table in which no row has a product or a date. *)
Definition blank_frame : DataFrame :=
  mkDataFrame
    [("Product", mkSeries float64 [NA; NA]);
     ("Sales", mkSeries int64 [Num 10; Num 5]);
     ("Date", mkSeries float64 [NA; NA])].

Definition blank_world : World := mkWorld {[ 0%nat := blank_frame ]} ∅ [].

(** A table in which a date is not a date. *)
Definition bad_date_grid : list (list cell) :=
  [[Str "Date"; Str "Sales"];
   [Str "2023-01-05"; Num 10];
   [Str "soon"; Num 5]].

Definition bad_date_world : World :=
  mkWorld ∅ {[ sales_csv := File bad_date_grid ]} [].

(** The position at which a key is first met in a column (the length of the
    column when it is never met). *)
Fixpoint first_index (keys : list cell) (k : cell) : nat :=
  match keys with
  | [] => 0%nat
  | x :: keys' => if decide (x = k) then 0%nat else S (first_index keys' k)
  end.

(** Entries with equal values stand in the order in which their keys were
    first met in the column. *)
Definition ties_by_first_seen (keys : list cell) (agg : list (cell * Z)) : Prop :=
  ∀ (i j : nat) (k1 k2 : cell) (v : Z),
    (i < j)%nat → agg !! i = Some (k1, v) → agg !! j = Some (k2, v) →
    (first_index keys k1 < first_index keys k2)%nat.

(** Does a parsed date fall in a month? *)
Definition in_month (p : period) (c : cell) : bool :=
  match c with
  | Stamp t => (year t =? pyear p) && (month t =? pmonth p)
  | _ => false
  end.

Definition is_stamp (c : cell) : bool :=
  match c with Stamp _ => true | _ => false end.

(** The cells of [vals] on the rows of a given month. *)
Definition month_rows (p : period) (dates vals : list cell) : list cell :=
  map snd (filter (fun r => in_month p (fst r) = true) (zip dates vals)).

(** The cells of [vals] on the rows that have a date. *)
Definition dated_rows (dates vals : list cell) : list cell :=
  map snd (filter (fun r => is_stamp (fst r) = true) (zip dates vals)).

(** Two tables with the same two products and equal sales, met in opposite
    orders. *)
Definition tie_frame_BA : DataFrame :=
  mkDataFrame
    [("Product", mkSeries object [Str "B"; Str "A"]);
     ("Sales", mkSeries int64 [Num 5; Num 5])].

Definition tie_frame_AB : DataFrame :=
  mkDataFrame
    [("Product", mkSeries object [Str "A"; Str "B"]);
     ("Sales", mkSeries int64 [Num 5; Num 5])].

Definition tie_world : World := mkWorld {[ 0%nat := tie_frame_BA ]} ∅ [].

Definition bad_date_frame : DataFrame :=
  mkDataFrame
    [("Date", mkSeries object [Str "2023-01-05"; Str "soon"]);
     ("Sales", mkSeries int64 [Num 10; Num 5])].

(** Another sort kind the contract admits: merge sort of the positions taken
    from the last to the first, so that equal items come out in the reverse
    of the stable order. *)
Definition reversing_argsort : SortKind :=
  fun l => merge_sort (le_at l) (reverse (seq 0%nat (length l))).

(** What [sales_by_product] prints and plots for a table, when it returns. *)
Definition product_events `{SortKind} `{FloatSum} (d : DataFrame) : list event :=
  match getitem d "Product", getitem d "Sales" with
  | Some p, Some s =>
      [Print (SalesByProduct (product_totals p s));
       Show (product_chart (product_totals p s))]
  | _, _ => []
  end.

(** What [monthly_sales_trend] plots for a table, when it returns. *)
Definition trend_events `{DateParser} `{FloatSum} (d : DataFrame) : list event :=
  match getitem d "Date", getitem d "Sales" with
  | Some date, Some s =>
      match to_datetime date with
      | Ok parsed => [Show (trend_chart (month_totals (months_of parsed) s))]
      | Raise _ => []
      end
  | _, _ => []
  end.

(** * Properties *)

(** ** Sums *)

Lemma wrap64_add_l a b : wrap64 (wrap64 a + b) = wrap64 (a + b).
Proof.
  unfold wrap64.
  replace ((a + 2 ^ 63) mod 2 ^ 64 - 2 ^ 63 + b + 2 ^ 63)
    with ((a + 2 ^ 63) mod 2 ^ 64 + b) by lia.
  rewrite Zplus_mod_idemp_l. f_equal. f_equal. lia.
Qed.

Lemma wrap64_add_r a b : wrap64 (a + wrap64 b) = wrap64 (a + b).
Proof. rewrite (Z.add_comm a), wrap64_add_l. f_equal. lia. Qed.

Lemma wrap64_idemp a : wrap64 (wrap64 a) = wrap64 a.
Proof.
  replace (wrap64 a) with (wrap64 a + 0) at 1 by lia.
  rewrite wrap64_add_l. f_equal. lia.
Qed.

Lemma wrap64_range a : - 2 ^ 63 ≤ wrap64 a < 2 ^ 63.
Proof. unfold wrap64. pose proof (Z.mod_pos_bound (a + 2 ^ 63) (2 ^ 64)). lia. Qed.

Lemma int64_sum_from a l :
  foldl (fun acc c => wrap64 (acc + cell_num c)) (wrap64 a) l
  = wrap64 (a + zsum (map cell_num l)).
Proof.
  revert a. induction l as [|c l IH]; intros a; simpl.
  - f_equal. lia.
  - rewrite wrap64_add_l, IH. f_equal. lia.
Qed.

(** The running total with wrap-around is the exact total, wrapped once. *)
Lemma int64_sum_wrap l : int64_sum l = wrap64 (zsum (map cell_num l)).
Proof.
  pose proof (int64_sum_from 0 l) as E.
  change (wrap64 0) with 0 in E. exact E.
Qed.

Lemma zsum_cons x l : zsum (x :: l) = x + zsum l.
Proof. done. Qed.

Lemma zsum_app l k : zsum (l ++ k) = zsum l + zsum k.
Proof. induction l; simpl; lia. Qed.

Lemma zsum_perm l k : l ≡ₚ k → zsum l = zsum k.
Proof. induction 1; simpl; lia. Qed.

Lemma wrap64_zsum_wrap l : wrap64 (zsum (map wrap64 l)) = wrap64 (zsum l).
Proof.
  induction l as [|x l IH]; simpl; [done|].
  rewrite wrap64_add_l, <- wrap64_add_r, IH, wrap64_add_r. done.
Qed.

Lemma series_total_wrap agg : series_total agg = wrap64 (zsum (map snd agg)).
Proof.
  unfold series_total. rewrite int64_sum_wrap, map_map. done.
Qed.

Lemma series_total_perm agg agg' :
  agg ≡ₚ agg' → series_total agg = series_total agg'.
Proof.
  intros Hp. rewrite !series_total_wrap. f_equal.
  apply zsum_perm. by apply Permutation_map.
Qed.

(** ** Order of the group keys *)

Lemma period_leb_le p q : period_leb p q = true ↔ period_le p q.
Proof.
  unfold period_leb, period_le.
  rewrite orb_true_iff, andb_true_iff, Z.ltb_lt, Z.eqb_eq, Z.leb_le. done.
Qed.

Lemma datetime_leb_spec s t :
  datetime_leb s t = true ↔
  year s < year t ∨ (year s = year t ∧
  (month s < month t ∨ (month s = month t ∧
  (day s < day t ∨ (day s = day t ∧ nanos s ≤ nanos t))))).
Proof.
  unfold datetime_leb.
  rewrite !orb_true_iff, !andb_true_iff, !orb_true_iff, !andb_true_iff,
    !orb_true_iff, !andb_true_iff, !Z.ltb_lt, !Z.eqb_eq, !Z.leb_le. done.
Qed.

Global Instance cell_le_total : Total cell_le.
Proof.
  intros a b. unfold cell_le.
  destruct a as [|x|s|s|p], b as [|y|t|t|q]; simpl;
    try (left; reflexivity); try (right; reflexivity).
  - rewrite !Z.leb_le. lia.
  - apply String.leb_total.
  - rewrite !datetime_leb_spec. lia.
  - rewrite !period_leb_le. unfold period_le. lia.
Qed.

Global Instance period_le_trans : Transitive period_le.
Proof. intros p q r. unfold period_le. lia. Qed.

(** ** Groups *)

Lemma group_keys_perm keys :
  group_keys keys ≡ₚ remove_dups (filter (fun k => notna k = true) keys).
Proof. apply merge_sort_Permutation. Qed.

Lemma NoDup_group_keys keys : NoDup (group_keys keys).
Proof. rewrite group_keys_perm. apply NoDup_remove_dups. Qed.

Lemma elem_of_group_keys k keys :
  k ∈ group_keys keys ↔ notna k = true ∧ k ∈ keys.
Proof.
  rewrite group_keys_perm, elem_of_remove_dups, list_elem_of_filter. done.
Qed.

Lemma Sorted_group_keys keys : Sorted cell_le (group_keys keys).
Proof. apply Sorted_merge_sort, _. Qed.

Lemma filter_ext_elem {A} (P Q : A → Prop)
    `{!∀ x, Decision (P x), !∀ x, Decision (Q x)} (l : list A) :
  (∀ x, x ∈ l → P x ↔ Q x) → filter P l = filter Q l.
Proof.
  induction l as [|a l IH]; intros Hext; [done|].
  rewrite !filter_cons.
  assert (filter P l = filter Q l) as ->.
  { apply IH. intros x Hx. apply Hext. by right. }
  destruct (decide (P a)) as [Hp|Hp], (decide (Q a)) as [Hq|Hq]; try done.
  - destruct Hq. apply Hext; [left|done].
  - destruct Hp. apply Hext; [left|done].
Qed.

Lemma zsum_map_add {A} (f g : A → Z) (l : list A) :
  zsum (map (fun x => f x + g x) l) = zsum (map f l) + zsum (map g l).
Proof. induction l; simpl; lia. Qed.

Lemma zsum_indicator (U : list cell) (k0 : cell) (v : Z) :
  NoDup U →
  zsum (map (fun k => if decide (k0 = k) then v else 0) U)
  = if decide (k0 ∈ U) then v else 0.
Proof.
  induction 1 as [|x U Hx Hnd IH]; [done|].
  - rewrite map_cons, zsum_cons, IH.
    destruct (decide (k0 ∈ U)) as [Hin|Hin], (decide (k0 = x)) as [->|Hne];
      try done.
    + rewrite decide_True; [lia|]. by right.
    + rewrite decide_True; [lia|]. left.
    + rewrite decide_False; [lia|]. by intros [?|?]%elem_of_cons.
Qed.

(** Summing group by group visits every row whose key is among the groups
    exactly once. *)
Lemma group_partition (U : list cell) (rows : list (cell * cell)) :
  NoDup U →
  zsum (map (fun k => zsum (map cell_num (map snd (filter (fun r => fst r = k) rows)))) U)
  = zsum (map cell_num (map snd (filter (fun r => fst r ∈ U) rows))).
Proof.
  intros Hnd. induction rows as [|r rows IH].
  - simpl. induction U; simpl; [done|].
    rewrite IHU; [done|]. by inversion Hnd.
  - rewrite (map_ext _ (fun k => (if decide (fst r = k) then cell_num (snd r) else 0)
       + zsum (map cell_num (map snd (filter (fun r => fst r = k) rows))))).
    2:{ intros k. rewrite filter_cons. by destruct (decide (fst r = k)). }
    rewrite zsum_map_add, zsum_indicator, IH by done.
    rewrite filter_cons. by destruct (decide (fst r ∈ U)).
Qed.

(** Conservation over the rows that take part, for integers: the per-group
    sums add up to the sum of the column over the rows whose key is present.
    Wrap-around does not get in the way, since it commutes with addition. *)
Lemma groupby_sum_total `{F : FloatSum} keys vals :
  series_total (groupby_sum int64 keys vals) = int64_sum (present_rows keys vals).
Proof.
  rewrite series_total_wrap, int64_sum_wrap. unfold groupby_sum, present_rows.
  rewrite map_map. simpl.
  rewrite (map_ext _ (fun k => wrap64 (zsum (map cell_num (group_rows k keys vals)))))
    by (intros; apply int64_sum_wrap).
  rewrite <- (map_map (fun k => zsum (map cell_num (group_rows k keys vals))) wrap64).
  rewrite wrap64_zsum_wrap. f_equal.
  unfold group_rows.
  rewrite group_partition by apply NoDup_group_keys.
  do 3 f_equal. apply filter_ext_elem. intros [k v] Hin. simpl.
  rewrite elem_of_group_keys. apply elem_of_zip_l in Hin. tauto.
Qed.

(** Without a missing key every row takes part. *)
Lemma present_rows_all (keys vals : list cell) :
  Forall (fun k => notna k = true) keys → (length vals ≤ length keys)%nat →
  present_rows keys vals = vals.
Proof.
  unfold present_rows. revert vals.
  induction keys as [|k keys IH]; intros vals Hall Hlen.
  - destruct vals; simpl in *; [done|lia].
  - destruct vals as [|v vals]; [done|].
    inversion Hall; subst. simpl in *.
    rewrite filter_cons_True by done. simpl. f_equal. apply IH; [done|lia].
Qed.

(** ** Sorting by value *)

Lemma reverse_rev {A} (l : list A) : reverse l = rev l.
Proof. unfold reverse. by rewrite <- rev_alt. Qed.

Lemma index_by_seq {A} (d : A) (l : list A) :
  index_by d l (seq 0%nat (length l)) = l.
Proof.
  unfold index_by. induction l as [|x l IH]; [done|].
  simpl. f_equal. rewrite <- seq_shift, map_map. done.
Qed.

Lemma index_by_perm {A} (d : A) (l : list A) ix ix' :
  ix ≡ₚ ix' → index_by d l ix ≡ₚ index_by d l ix'.
Proof. apply Permutation_map. Qed.

Lemma index_by_reverse {A} (d : A) (l : list A) ix :
  index_by d l (reverse ix) = reverse (index_by d l ix).
Proof. unfold index_by. by rewrite !reverse_rev, map_rev. Qed.

Lemma map_snd_index_by (s : list (cell * Z)) ix :
  map snd (index_by (NA, 0) s ix) = index_by 0 (map snd s) ix.
Proof.
  unfold index_by. rewrite map_map. apply map_ext. intros i.
  by rewrite <- (map_nth snd).
Qed.

(** Reading reversed items at position [i] is reading the items at the
    position the reversed index holds at [i]. *)
Lemma nth_reverse_idx (items : list Z) (i : nat) :
  (i < length items)%nat →
  nth (nth i (reverse (seq 0%nat (length items))) 0%nat) items 0
  = nth i (reverse items) 0.
Proof.
  intros Hi. rewrite !reverse_rev.
  rewrite rev_nth by (by rewrite length_seq).
  rewrite length_seq, seq_nth by lia.
  rewrite rev_nth by done. done.
Qed.

Section sort_kind.
Context (K : SortKind) `{!SortKindSpec K}.

Lemma argsort_bound (l : list Z) i : i ∈ argsort l → (i < length l)%nat.
Proof.
  rewrite (argsort_perm l), list_elem_of_In, in_seq. lia.
Qed.

Lemma nargsort_perm items ascending :
  nargsort items ascending ≡ₚ seq 0%nat (length items).
Proof.
  unfold nargsort. destruct ascending.
  - etrans; [apply index_by_perm, argsort_perm|].
    pose proof (index_by_seq 0%nat (seq 0%nat (length items))) as E.
    rewrite length_seq in E. by rewrite E.
  - rewrite reverse_Permutation.
    etrans; [apply index_by_perm, argsort_perm|].
    pose proof (index_by_seq 0%nat (reverse (seq 0%nat (length items)))) as E.
    rewrite length_reverse, length_seq in E.
    rewrite length_reverse, E. apply reverse_Permutation.
Qed.

(** Sorting reorders the entries and loses none. *)
Lemma sort_values_perm ascending (s : list (cell * Z)) :
  sort_values ascending s ≡ₚ s.
Proof.
  unfold sort_values.
  etrans; [apply index_by_perm, nargsort_perm|].
  by rewrite length_map, index_by_seq.
Qed.

(** A descending sort leaves the values in descending order, whatever the
    sort kind does with equal values. *)
Lemma sort_values_descending (s : list (cell * Z)) :
  descending (sort_values false s).
Proof.
  unfold descending, sort_values.
  apply Sorted_StronglySorted; [intros x y z; lia|].
  rewrite map_snd_index_by. unfold nargsort.
  rewrite index_by_reverse. apply Sorted_reverse.
  set (items := map snd s).
  assert (index_by 0 items
            (index_by 0%nat (reverse (seq 0%nat (length items)))
               (argsort (reverse items)))
          = map (fun i => nth i (reverse items) 0) (argsort (reverse items))) as ->.
  { unfold index_by. rewrite map_map. apply map_ext_in. intros i Hi.
    apply nth_reverse_idx.
    apply list_elem_of_In, argsort_bound in Hi. by rewrite length_reverse in Hi. }
  apply (argsort_sorted (reverse items)).
Qed.

End sort_kind.

(** The stable kind is a sort kind. *)
Global Instance stable_argsort_spec : SortKindSpec stable_argsort.
Proof.
  split; intros l; unfold argsort, stable_argsort.
  - apply merge_sort_Permutation.
  - change (map (fun i => nth i l 0)) with (fmap (M := list) (fun i => nth i l 0)).
    eapply (Sorted_fmap _ (le_at l) Z.le); [by intros ??|].
    apply Sorted_merge_sort. intros i j. unfold le_at. lia.
Qed.

(** ** Columns of a frame *)

Lemma has_column_elem d n : has_column d n = true ↔ n ∈ columns d.
Proof.
  unfold has_column. rewrite existsb_exists, list_elem_of_In. split.
  - intros (c & Hc & ->%String.eqb_eq). done.
  - intros Hn. exists n. split; [done|]. apply String.eqb_refl.
Qed.

Lemma has_column_false d n : has_column d n = false ↔ n ∉ columns d.
Proof. rewrite <- has_column_elem. by destruct (has_column d n). Qed.

Lemma getitem_has_column d n : has_column d n = true ↔ is_Some (getitem d n).
Proof.
  unfold has_column, columns, getitem. destruct d as [l]; simpl.
  induction l as [|[c s] l IH]; simpl.
  - split; [done|]. by intros [? ?].
  - rewrite (String.eqb_sym n c). destruct (String.eqb c n); simpl; [|done].
    split; [|done]. by eexists.
Qed.

Lemma issubset_two a b d :
  issubset [a; b] d = has_column d a && has_column d b.
Proof. unfold issubset. simpl. by rewrite andb_true_r. Qed.

Lemma getitem_replace_eq n (s : Series) (l : list (string * Series)) :
  existsb (String.eqb n) (map fst l) = true →
  snd <$> find (fun c => String.eqb (fst c) n) (replace_column n s l) = Some s.
Proof.
  induction l as [|[c x] l IH]; simpl; [done|].
  rewrite (String.eqb_sym n c). destruct (String.eqb c n) eqn:E; simpl.
  - by rewrite String.eqb_refl.
  - by rewrite E.
Qed.

Lemma getitem_replace_ne n m (s : Series) (l : list (string * Series)) :
  n ≠ m →
  snd <$> find (fun c => String.eqb (fst c) m) (replace_column n s l)
  = snd <$> find (fun c => String.eqb (fst c) m) l.
Proof.
  intros Hne. induction l as [|[c x] l IH]; simpl; [done|].
  destruct (String.eqb c n) eqn:E; simpl.
  - apply String.eqb_eq in E as ->.
    by rewrite (proj2 (String.eqb_neq n m)).
  - by destruct (String.eqb c m).
Qed.

Lemma getitem_append_eq n (s : Series) (l : list (string * Series)) :
  existsb (String.eqb n) (map fst l) = false →
  snd <$> find (fun c => String.eqb (fst c) n) (l ++ [(n, s)]) = Some s.
Proof.
  induction l as [|[c x] l IH]; simpl.
  - by rewrite String.eqb_refl.
  - rewrite (String.eqb_sym n c). by destruct (String.eqb c n).
Qed.

Lemma getitem_append_ne n m (s : Series) (l : list (string * Series)) :
  n ≠ m →
  snd <$> find (fun c => String.eqb (fst c) m) (l ++ [(n, s)])
  = snd <$> find (fun c => String.eqb (fst c) m) l.
Proof.
  intros Hne. induction l as [|[c x] l IH]; simpl.
  - by rewrite (proj2 (String.eqb_neq n m)).
  - by destruct (String.eqb c m).
Qed.

(** Reading back the column just assigned. *)
Lemma getitem_setitem_eq d n s : getitem (setitem d n s) n = Some s.
Proof.
  unfold setitem, getitem. destruct (has_column d n) eqn:E; simpl.
  - by apply getitem_replace_eq.
  - by apply getitem_append_eq.
Qed.

(** Assigning a column leaves the others as they are. *)
Lemma getitem_setitem_ne d n m s : n ≠ m → getitem (setitem d n s) m = getitem d m.
Proof.
  intros Hne. unfold setitem, getitem. destruct (has_column d n); simpl.
  - by apply getitem_replace_ne.
  - by apply getitem_append_ne.
Qed.

(** ** Running computations *)

Lemma bind_ok {A B} (m : M A) (f : A → M B) w a w' :
  m w = (Ok a, w') → (m ≫= f) w = f a w'.
Proof. intros E. unfold mbind, M_bind. by rewrite E. Qed.

Lemma bind_raise {A B} (m : M A) (f : A → M B) w e w' :
  m w = (Raise e, w') → (m ≫= f) w = (Raise e, w').
Proof. intros E. unfold mbind, M_bind. by rewrite E. Qed.

Lemma deref_ok w r d : heap w !! r = Some d → deref r w = (Ok d, w).
Proof. intros E. unfold deref. by rewrite E. Qed.

Lemma get_column_ok w r d n s :
  heap w !! r = Some d → getitem d n = Some s → get_column r n w = (Ok s, w).
Proof.
  intros Hr Hn. unfold get_column.
  rewrite (bind_ok _ _ _ _ _ (deref_ok _ _ _ Hr)). by rewrite Hn.
Qed.

Lemma set_column_ok w r d n s :
  heap w !! r = Some d →
  set_column r n s w
  = (Ok tt, mkWorld (<[r := setitem d n s]> (heap w)) (fs w) (trace w)).
Proof.
  intros Hr. unfold set_column.
  by rewrite (bind_ok _ _ _ _ _ (deref_ok _ _ _ Hr)).
Qed.

Lemma copy_ok w r d :
  heap w !! r = Some d →
  copy r w = (Ok (fresh (dom (heap w))),
              mkWorld (<[fresh (dom (heap w)) := d]> (heap w)) (fs w) (trace w)).
Proof.
  intros Hr. unfold copy.
  by rewrite (bind_ok _ _ _ _ _ (deref_ok _ _ _ Hr)).
Qed.

(** A new object never takes the place of an existing one. *)
Lemma fresh_ref_None (h : gmap nat DataFrame) : h !! fresh (dom h) = None.
Proof. apply not_elem_of_dom, is_fresh. Qed.

Lemma world_eta w : mkWorld (heap w) (fs w) (trace w) = w.
Proof. by destruct w. Qed.

(** ** Date conversion *)

Lemma collect_ok_values {A B} (f : A → result B) l ys :
  collect f l = Ok ys → Forall2 (fun x y => f x = Ok y) l ys.
Proof.
  revert ys. induction l as [|x l IH]; intros ys; simpl.
  - intros [= <-]. constructor.
  - destruct (f x) as [y|e] eqn:E; [|done].
    destruct (collect f l) as [ys'|e]; [|done].
    intros [= <-]. constructor; [done|by apply IH].
Qed.

(** One failing element is enough for the whole conversion to fail, with the
    error of an element that fails. *)
Lemma collect_raise {A B} (f : A → result B) l x e :
  x ∈ l → f x = Raise e →
  ∃ x' e', collect f l = Raise e' ∧ x' ∈ l ∧ f x' = Raise e'.
Proof.
  induction l as [|a l IH]; intros Hin Hx; [by apply elem_of_nil in Hin|].
  simpl. destruct (f a) as [y|e0] eqn:E.
  - apply elem_of_cons in Hin as [->|Hin]; [congruence|].
    destruct (IH Hin Hx) as (x' & e' & -> & Hx' & Hf).
    exists x', e'. split_and!; [done|by right|done].
  - exists a, e0. split_and!; [done|left|done].
Qed.

Lemma to_datetime_dtype `{DateParser} s parsed :
  to_datetime s = Ok parsed → sdtype parsed = datetime64.
Proof.
  unfold to_datetime. destruct (collect _ _); [|done]. by intros [= <-].
Qed.

Lemma to_period_M_ok parsed :
  sdtype parsed = datetime64 → to_period_M parsed = Ok (months_of parsed).
Proof. unfold to_period_M. by intros ->. Qed.

(** ** The two aggregations, case by case *)

Section aggregations.
Context `{K : SortKind} `{P : DateParser} `{F : FloatSum} `{R : Renderer}.

Lemma plot_ok c w :
  render c = Ok tt →
  plot c w = (Ok tt, mkWorld (heap w) (fs w) (trace w ++ [Show c])).
Proof. intros E. unfold plot. by rewrite E. Qed.

Lemma plot_raise c e w : render c = Raise e → plot c w = (Raise e, w).
Proof. intros E. unfold plot. by rewrite E. Qed.

(** Whatever its outcome, a plot leaves the store and the files alone and
    only adds to what is on screen. *)
Lemma plot_frame c w :
  ∃ res evs, plot c w = (res, mkWorld (heap w) (fs w) (trace w ++ evs)).
Proof.
  unfold plot. destruct (render c) as [[]|e].
  - by eexists _, _.
  - exists (Raise e), []. by rewrite app_nil_r, world_eta.
Qed.

Lemma sales_by_product_skip w r d :
  heap w !! r = Some d → issubset ["Product"; "Sales"] d = false →
  sales_by_product r w = (Ok tt, w).
Proof.
  intros Hr Hs. unfold sales_by_product.
  rewrite (bind_ok _ _ _ _ _ (deref_ok _ _ _ Hr)). by rewrite Hs.
Qed.

Lemma sales_by_product_columns w r d p s :
  heap w !! r = Some d →
  getitem d "Product" = Some p → getitem d "Sales" = Some s →
  sales_by_product r w =
    if is_numeric_dtype (sdtype s) then
      match render (product_chart (product_totals p s)) with
      | Ok _ =>
          (Ok tt, mkWorld (heap w) (fs w)
             (trace w ++ [Print (SalesByProduct (product_totals p s));
                          Show (product_chart (product_totals p s))]))
      | Raise e =>
          (Raise e, mkWorld (heap w) (fs w)
             (trace w ++ [Print (SalesByProduct (product_totals p s))]))
      end
    else (Raise TypeError, w).
Proof.
  intros Hr Hp Hs. unfold sales_by_product.
  rewrite (bind_ok _ _ _ _ _ (deref_ok _ _ _ Hr)).
  rewrite issubset_two.
  rewrite (proj2 (getitem_has_column d "Product")) by (by rewrite Hp).
  rewrite (proj2 (getitem_has_column d "Sales")) by (by rewrite Hs).
  simpl.
  rewrite (bind_ok _ _ _ _ _ (get_column_ok _ _ _ _ _ Hr Hp)).
  rewrite (bind_ok _ _ _ _ _ (get_column_ok _ _ _ _ _ Hr Hs)).
  destruct (is_numeric_dtype (sdtype s)); [|done].
  fold (product_chart (product_totals p s)).
  unfold mbind, M_bind, print, emit, plot. simpl.
  destruct (render (product_chart (product_totals p s))) as [[]|e]; [|done].
  unfold emit. simpl. by rewrite <- app_assoc.
Qed.

(** What [sales_by_product] prints and plots on a table that has both
    columns, the sales being numeric: the totals are printed, then plotted
    if the plot accepts them. *)
Lemma sales_by_product_numeric w r d p s :
  heap w !! r = Some d →
  getitem d "Product" = Some p → getitem d "Sales" = Some s →
  is_numeric_dtype (sdtype s) = true →
  sales_by_product r w
  = match render (product_chart (product_totals p s)) with
    | Ok _ =>
        (Ok tt, mkWorld (heap w) (fs w)
           (trace w ++ [Print (SalesByProduct (product_totals p s));
                        Show (product_chart (product_totals p s))]))
    | Raise e =>
        (Raise e, mkWorld (heap w) (fs w)
           (trace w ++ [Print (SalesByProduct (product_totals p s))]))
    end.
Proof.
  intros Hr Hp Hs Hnum.
  by rewrite (sales_by_product_columns _ _ _ _ _ Hr Hp Hs), Hnum.
Qed.

(** The same when the plot accepts the totals. *)
Lemma sales_by_product_shown w r d p s :
  heap w !! r = Some d →
  getitem d "Product" = Some p → getitem d "Sales" = Some s →
  is_numeric_dtype (sdtype s) = true →
  render (product_chart (product_totals p s)) = Ok tt →
  sales_by_product r w
  = (Ok tt, mkWorld (heap w) (fs w)
       (trace w ++ [Print (SalesByProduct (product_totals p s));
                    Show (product_chart (product_totals p s))])).
Proof.
  intros Hr Hp Hs Hnum Hshow.
  by rewrite (sales_by_product_numeric _ _ _ _ _ Hr Hp Hs Hnum), Hshow.
Qed.

(** Whatever its outcome, [sales_by_product] leaves the store and the
    files alone and only adds to what is on screen. *)
Lemma sales_by_product_frame r w :
  ∃ res evs,
    sales_by_product r w = (res, mkWorld (heap w) (fs w) (trace w ++ evs)).
Proof.
  destruct (heap w !! r) as [d|] eqn:Hr.
  - destruct (issubset ["Product"; "Sales"] d) eqn:Hs.
    + rewrite issubset_two, andb_true_iff, !getitem_has_column in Hs.
      destruct Hs as [[p Hp] [s Hs]].
      rewrite (sales_by_product_columns _ _ _ _ _ Hr Hp Hs).
      destruct (is_numeric_dtype (sdtype s)).
      * destruct (render _); by eexists _, _.
      * exists (Raise TypeError), []. by rewrite app_nil_r, world_eta.
    + exists (Ok tt), [].
      by rewrite (sales_by_product_skip _ _ _ Hr Hs), app_nil_r, world_eta.
  - exists (Raise ReferenceError), [].
    unfold sales_by_product, mbind, M_bind, deref. rewrite Hr.
    by rewrite app_nil_r, world_eta.
Qed.

Lemma monthly_sales_trend_skip w r d :
  heap w !! r = Some d → issubset ["Date"; "Sales"] d = false →
  monthly_sales_trend r w = (Ok tt, w).
Proof.
  intros Hr Hs. unfold monthly_sales_trend.
  rewrite (bind_ok _ _ _ _ _ (deref_ok _ _ _ Hr)). by rewrite Hs.
Qed.

(** With both columns there, the outcome is decided by the conversion of
    the dates, then by the dtype of the sales. *)
Lemma monthly_sales_trend_columns w r d date s :
  heap w !! r = Some d →
  getitem d "Date" = Some date → getitem d "Sales" = Some s →
  let r' := fresh (dom (heap w)) in
  monthly_sales_trend r w =
    match to_datetime date with
    | Raise e => (Raise e, mkWorld (<[r' := d]> (heap w)) (fs w) (trace w))
    | Ok parsed =>
        let w' tr := mkWorld (<[r' := trend_frame d parsed]> (heap w)) (fs w) tr in
        if is_numeric_dtype (sdtype s) then
          match render (trend_chart (month_totals (months_of parsed) s)) with
          | Ok _ =>
              (Ok tt,
               w' (trace w ++ [Show (trend_chart (month_totals (months_of parsed) s))]))
          | Raise e => (Raise e, w' (trace w))
          end
        else (Raise TypeError, w' (trace w))
    end.
Proof.
  intros Hr Hd Hs r'. unfold monthly_sales_trend.
  rewrite (bind_ok _ _ _ _ _ (deref_ok _ _ _ Hr)).
  rewrite issubset_two.
  rewrite (proj2 (getitem_has_column d "Date")) by (by rewrite Hd).
  rewrite (proj2 (getitem_has_column d "Sales")) by (by rewrite Hs).
  simpl.
  rewrite (bind_ok _ _ _ _ _ (copy_ok _ _ _ Hr)). fold r'.
  set (w1 := mkWorld (<[r' := d]> (heap w)) (fs w) (trace w)).
  assert (heap w1 !! r' = Some d) as Hr1 by apply lookup_insert_eq.
  rewrite (bind_ok _ _ _ _ _ (get_column_ok _ _ _ _ _ Hr1 Hd)).
  destruct (to_datetime date) as [parsed|e] eqn:Hparse; [|done].
  rewrite (bind_ok _ _ _ _ _ (eq_refl : lift (Ok parsed) w1 = (Ok parsed, w1))).
  rewrite (bind_ok _ _ _ _ _ (set_column_ok _ _ _ "Date" parsed Hr1)).
  simpl. rewrite insert_insert_eq.
  set (d1 := setitem d "Date" parsed).
  set (w2 := mkWorld (<[r' := d1]> (heap w)) (fs w) (trace w)).
  assert (heap w2 !! r' = Some d1) as Hr2 by apply lookup_insert_eq.
  rewrite (bind_ok _ _ _ _ _
             (get_column_ok _ _ _ _ _ Hr2 (getitem_setitem_eq d "Date" parsed))).
  rewrite (to_period_M_ok _ (to_datetime_dtype _ _ Hparse)).
  rewrite (bind_ok _ _ _ _ _
             (eq_refl : lift (Ok (months_of parsed)) w2 = (Ok (months_of parsed), w2))).
  rewrite (bind_ok _ _ _ _ _ (set_column_ok _ _ _ "Month" (months_of parsed) Hr2)).
  simpl. rewrite insert_insert_eq. fold (trend_frame d parsed).
  set (w3 := mkWorld (<[r' := trend_frame d parsed]> (heap w)) (fs w) (trace w)).
  assert (heap w3 !! r' = Some (trend_frame d parsed)) as Hr3
    by apply lookup_insert_eq.
  rewrite (bind_ok _ _ _ _ _
             (get_column_ok _ _ _ _ _ Hr3
                (getitem_setitem_eq d1 "Month" (months_of parsed)))).
  assert (getitem (trend_frame d parsed) "Sales" = Some s) as Hs3.
  { unfold trend_frame. by rewrite !getitem_setitem_ne. }
  rewrite (bind_ok _ _ _ _ _ (get_column_ok _ _ _ _ _ Hr3 Hs3)).
  destruct (is_numeric_dtype (sdtype s)); [|done].
  fold (trend_chart (month_totals (months_of parsed) s)).
  unfold plot. by destruct (render _) as [[]|e].
Qed.

(** Whatever its outcome, [monthly_sales_trend] keeps every object of the
    store as it was (it may add one), leaves the files alone and only adds
    to what is on screen. *)
Lemma monthly_sales_trend_frame r w :
  ∃ res h' evs,
    monthly_sales_trend r w = (res, mkWorld h' (fs w) (trace w ++ evs))
    ∧ heap w ⊆ h'.
Proof.
  assert (∀ x, heap w ⊆ <[fresh (dom (heap w)) := x]> (heap w)) as Hsub
    by (intros; apply insert_subseteq, fresh_ref_None).
  destruct (heap w !! r) as [d|] eqn:Hr.
  - destruct (issubset ["Date"; "Sales"] d) eqn:Hs.
    + rewrite issubset_two, andb_true_iff, !getitem_has_column in Hs.
      destruct Hs as [[date Hd] [s Hs]].
      rewrite (monthly_sales_trend_columns _ _ _ _ _ Hr Hd Hs).
      destruct (to_datetime date) as [parsed|e].
      * cbv zeta. destruct (is_numeric_dtype (sdtype s)).
        -- destruct (render _).
           ++ eexists _, _, _. split; [reflexivity|apply Hsub].
           ++ eexists _, _, []. rewrite app_nil_r. split; [reflexivity|apply Hsub].
        -- exists (Raise TypeError), (<[fresh (dom (heap w)) := trend_frame d parsed]> (heap w)), [].
           rewrite app_nil_r. split; [done|apply Hsub].
      * exists (Raise e), (<[fresh (dom (heap w)) := d]> (heap w)), [].
        rewrite app_nil_r. split; [done|apply Hsub].
    + exists (Ok tt), (heap w), [].
      by rewrite (monthly_sales_trend_skip _ _ _ Hr Hs), app_nil_r, world_eta.
  - exists (Raise ReferenceError), (heap w), [].
    unfold monthly_sales_trend, mbind, M_bind, deref. rewrite Hr.
    by rewrite app_nil_r, world_eta.
Qed.

End aggregations.

(** ** The run as a whole *)

Lemma getitem_columns d n s : getitem d n = Some s → data d ≠ [].
Proof. unfold getitem. by destruct (data d). Qed.

Section run.
Context `{K : SortKind} `{P : DateParser} `{F : FloatSum} `{R : Renderer}
        `{C : CsvReader}.

Lemma main_run_on file answer w :
  main file answer w =
    match chosen_path file answer with
    | Some p => run_on p w
    | None => (Raise (SystemExit " No file selected. Exiting."), w)
    end.
Proof.
  unfold main, chosen_path. destruct file as [s|]; [done|].
  unfold choose_file_gui. by destruct (String.eqb answer "").
Qed.

Lemma load_csv_missing p w :
  fs w !! p = None →
  load_csv p w
  = (Raise (SystemExit ("File not found: " +:+ Pathlib.to_string p)), w).
Proof.
  intros Hp. unfold load_csv, mbind, M_bind, path_exists. rewrite Hp.
  rewrite bool_decide_eq_false_2; [done|]. by intros [? ?].
Qed.

Lemma load_csv_file p w g d :
  fs w !! p = Some (File g) → parse_csv p g = Ok d →
  load_csv p w
  = (Ok (fresh (dom (heap w))),
     mkWorld (<[fresh (dom (heap w)) := d]> (heap w)) (fs w)
             (trace w ++ [Print (Loaded (len d) (Pathlib.name p))])).
Proof.
  intros Hp Hg. unfold load_csv, mbind, M_bind, path_exists. rewrite Hp.
  rewrite bool_decide_eq_true_2 by (by eexists). simpl.
  unfold read_csv. rewrite Hp, Hg. unfold alloc, deref. simpl.
  by rewrite lookup_insert_eq.
Qed.

(** A load that succeeds has read a file that parses. *)
Lemma load_csv_ok_inv p w r w1 :
  load_csv p w = (Ok r, w1) →
  ∃ g d, fs w !! p = Some (File g) ∧ parse_csv p g = Ok d.
Proof.
  destruct (fs w !! p) as [[|g]|] eqn:Hp.
  - unfold load_csv, mbind, M_bind, path_exists, read_csv. rewrite Hp.
    rewrite bool_decide_eq_true_2; [|by eexists]. simpl. by rewrite Hp.
  - destruct (parse_csv p g) as [d|e] eqn:Hg; [by eauto|].
    unfold load_csv, mbind, M_bind, path_exists, read_csv. rewrite Hp.
    rewrite bool_decide_eq_true_2; [|by eexists]. simpl. by rewrite Hp, Hg.
  - by rewrite load_csv_missing.
Qed.

Lemma basic_eda_ok w r d :
  heap w !! r = Some d → data d ≠ [] →
  basic_eda r w
  = (Ok tt, mkWorld (heap w) (fs w)
              (trace w ++ [Print (Columns (columns d));
                           Print (MissingValues (isna_sum d));
                           Print (SummaryStats d)])).
Proof.
  intros Hr Hd. unfold basic_eda.
  rewrite (bind_ok _ _ _ _ _ (deref_ok _ _ _ Hr)).
  unfold mbind, M_bind, print, emit. simpl.
  destruct (data d); [done|]. simpl. by rewrite <- !app_assoc.
Qed.

(** [describe] refuses a table without columns, after the first two
    reports. *)
Lemma basic_eda_no_columns w r d :
  heap w !! r = Some d → data d = [] →
  basic_eda r w
  = (Raise ValueError, mkWorld (heap w) (fs w)
       (trace w ++ [Print (Columns (columns d));
                    Print (MissingValues (isna_sum d))])).
Proof.
  intros Hr Hd. unfold basic_eda.
  rewrite (bind_ok _ _ _ _ _ (deref_ok _ _ _ Hr)).
  unfold mbind, M_bind, print, emit, raise. simpl.
  rewrite Hd. simpl. by rewrite <- !app_assoc.
Qed.

Lemma run_on_missing p w :
  fs w !! p = None →
  run_on p w
  = (Raise (SystemExit ("File not found: " +:+ Pathlib.to_string p)), w).
Proof.
  intros Hp. unfold run_on. by rewrite (bind_raise _ _ _ _ _ (load_csv_missing _ _ Hp)).
Qed.

Lemma run_on_file p w g d :
  fs w !! p = Some (File g) → parse_csv p g = Ok d → data d ≠ [] →
  run_on p w
  = after_report p (fresh (dom (heap w)))
      (mkWorld (<[fresh (dom (heap w)) := d]> (heap w)) (fs w)
               (trace w ++ report p d)).
Proof.
  intros Hp Hg Hcols. unfold run_on.
  rewrite (bind_ok _ _ _ _ _ (load_csv_file _ _ _ _ Hp Hg)).
  erewrite bind_ok.
  2:{ apply basic_eda_ok; [apply lookup_insert_eq|done]. }
  simpl. by rewrite <- app_assoc.
Qed.

(** A table without columns ends the run in the profiler. *)
Lemma run_on_no_columns p w g d :
  fs w !! p = Some (File g) → parse_csv p g = Ok d → data d = [] →
  ∃ evs,
    run_on p w
    = (Raise ValueError,
       mkWorld (<[fresh (dom (heap w)) := d]> (heap w)) (fs w) (trace w ++ evs)).
Proof.
  intros Hp Hg Hcols. unfold run_on.
  rewrite (bind_ok _ _ _ _ _ (load_csv_file _ _ _ _ Hp Hg)).
  erewrite bind_raise.
  2:{ apply basic_eda_no_columns; [apply lookup_insert_eq|done]. }
  simpl. eexists. by rewrite <- app_assoc.
Qed.

Lemma run_on_ok_inv p w w' :
  run_on p w = (Ok tt, w') →
  ∃ g d, fs w !! p = Some (File g) ∧ parse_csv p g = Ok d ∧ data d ≠ [].
Proof.
  intros Hrun.
  destruct (load_csv p w) as [[r|e] w1] eqn:Hload.
  - destruct (load_csv_ok_inv _ _ _ _ Hload) as (g & d & Hp & Hg).
    exists g, d. split_and!; [done..|].
    intros Hcols.
    destruct (run_on_no_columns _ _ _ _ Hp Hg Hcols) as [evs E]. congruence.
  - unfold run_on in Hrun. by rewrite (bind_raise _ _ _ _ _ Hload) in Hrun.
Qed.

(** A run that gets past the aggregations writes the loaded table, and
    nothing else, under the derived name. *)
Lemma after_report_ok_inv p r w d w' :
  heap w !! r = Some d →
  after_report p r w = (Ok tt, w') →
  ∃ out evs,
    Pathlib.with_stem p (Pathlib.stem p +:+ "_cleaned") = Ok out
    ∧ fs w' = <[out := File (to_grid d false)]> (fs w)
    ∧ trace w' = trace w ++ evs ++ [Print (Written out)]
    ∧ heap w ⊆ heap w'.
Proof.
  intros Hr. unfold after_report.
  destruct (sales_by_product_frame r w) as ([[]|e1] & evs1 & E1).
  2:{ by rewrite (bind_raise _ _ _ _ _ E1). }
  rewrite (bind_ok _ _ _ _ _ E1).
  set (w1 := mkWorld (heap w) (fs w) (trace w ++ evs1)) in *.
  destruct (monthly_sales_trend_frame r w1) as ([[]|e2] & h2 & evs2 & E2 & Hsub).
  2:{ by rewrite (bind_raise _ _ _ _ _ E2). }
  rewrite (bind_ok _ _ _ _ _ E2).
  set (w2 := mkWorld h2 (fs w1) (trace w1 ++ evs2)) in *.
  destruct (Pathlib.with_stem p _) as [out|e3] eqn:E3; [|done].
  rewrite (bind_ok _ _ _ _ _ (eq_refl : lift (Ok out) w2 = (Ok out, w2))).
  assert (heap w2 !! r = Some d) as Hr2 by (by eapply lookup_weaken).
  unfold to_csv, write_file, mbind, M_bind, print, emit, deref.
  rewrite Hr2. simpl.
  destruct (fs w !! out) as [[|content]|]; [done|..];
    intros [= <-]; exists out, (evs1 ++ evs2); simpl;
    by rewrite <- !app_assoc.
Qed.

End run.

(** ** Paths *)

Lemma str_take_drop i s : Pathlib.str_take i s +:+ Pathlib.str_drop i s = s.
Proof.
  revert s. induction i as [|i IH]; intros [|a s]; try done.
  change (String a (Pathlib.str_take i s +:+ Pathlib.str_drop i s) = String a s).
  f_equal. apply IH.
Qed.

Lemma append_empty_r s : s +:+ "" = s.
Proof.
  induction s as [|a s IH]; [done|].
  change (String a (s +:+ "") = String a s). by rewrite IH.
Qed.

(** The stem and the extension make up the name. *)
Lemma stem_suffix p : Pathlib.stem p +:+ Pathlib.suffix p = Pathlib.name p.
Proof.
  unfold Pathlib.stem, Pathlib.suffix.
  destruct (Pathlib.suffix_start (Pathlib.name p)).
  - apply str_take_drop.
  - apply append_empty_r.
Qed.

Lemma contains_app c a b :
  Pathlib.contains c (a +:+ b) = Pathlib.contains c a || Pathlib.contains c b.
Proof.
  induction a as [|x a IH]; [done|].
  change (Ascii.eqb x c || Pathlib.contains c (a +:+ b)
          = Ascii.eqb x c || Pathlib.contains c a || Pathlib.contains c b).
  by rewrite IH, orb_assoc.
Qed.

Lemma split_sep_no_sep s :
  Forall (fun c => Pathlib.contains Pathlib.sep c = false) (Pathlib.split_sep s).
Proof.
  induction s as [|a s IH]; simpl.
  - by repeat constructor.
  - destruct (Ascii.eqb a Pathlib.sep) eqn:E.
    + by constructor.
    + destruct (Pathlib.split_sep s) as [|h t].
      * repeat constructor. simpl. by rewrite E.
      * inversion IH; subst. constructor; [|done]. simpl. by rewrite E.
Qed.

(** The final component of a parsed path is a proper file name. *)
Lemma of_string_name s :
  Pathlib.tail (Pathlib.of_string s) ≠ [] →
  Pathlib.name (Pathlib.of_string s) ≠ ""
  ∧ Pathlib.contains Pathlib.sep (Pathlib.name (Pathlib.of_string s)) = false.
Proof.
  intros Hne. unfold Pathlib.name.
  destruct (exists_last Hne) as (l' & x & Hl). rewrite Hl, last_last.
  assert (x ∈ Pathlib.tail (Pathlib.of_string s)) as Hin.
  { rewrite Hl. apply list_elem_of_In, in_or_app. right. by left. }
  unfold Pathlib.of_string in Hin. simpl in Hin.
  apply list_elem_of_filter in Hin as [Hc Hin].
  apply andb_true_iff in Hc as [Hc _]. split.
  - intros ->. done.
  - pose proof (split_sep_no_sep s) as Hall.
    rewrite Forall_forall in Hall. by apply Hall.
Qed.

Lemma string_length_app a b :
  String.length (a +:+ b) = (String.length a + String.length b)%nat.
Proof.
  induction a as [|x a IH]; [done|].
  change (S (String.length (a +:+ b)) = S (String.length a + String.length b)).
  by rewrite IH.
Qed.

Lemma rfind_app c a b :
  Pathlib.rfind c (a +:+ b)
  = match Pathlib.rfind c b with
    | Some i => Some (String.length a + i)%nat
    | None => Pathlib.rfind c a
    end.
Proof.
  induction a as [|x a IH].
  - change ("" +:+ b) with b. by destruct (Pathlib.rfind c b).
  - change (String x a +:+ b) with (String x (a +:+ b)).
    cbn [Pathlib.rfind]. rewrite IH.
    by destruct (Pathlib.rfind c b).
Qed.

Lemma rfind_drop c s i :
  Pathlib.rfind c s = Some i →
  Pathlib.rfind c (Pathlib.str_drop i s) = Some 0%nat.
Proof.
  revert i. induction s as [|a s IH]; intros i; [done|].
  cbn [Pathlib.rfind]. destruct (Pathlib.rfind c s) as [j|] eqn:Hj.
  - intros [= <-]. cbn [Pathlib.str_drop]. by apply IH.
  - destruct (Ascii.eqb a c) eqn:E; [|done]. intros [= <-].
    cbn [Pathlib.str_drop Pathlib.rfind]. by rewrite Hj, E.
Qed.

Lemma str_drop_length i s :
  String.length (Pathlib.str_drop i s) = (String.length s - i)%nat.
Proof.
  revert s. induction i as [|i IH]; intros [|a s]; try done.
  cbn [Pathlib.str_drop]. rewrite IH. done.
Qed.

Lemma str_drop_app a b : Pathlib.str_drop (String.length a) (a +:+ b) = b.
Proof.
  induction a as [|x a IH]; [by destruct b|].
  change (String x a +:+ b) with (String x (a +:+ b)). exact IH.
Qed.

Lemma str_take_app a b : Pathlib.str_take (String.length a) (a +:+ b) = a.
Proof.
  induction a as [|x a IH]; [by destruct b|].
  change (String x a +:+ b) with (String x (a +:+ b)).
  cbn [String.length Pathlib.str_take]. by rewrite IH.
Qed.

Lemma append_assoc a b c : (a +:+ b) +:+ c = a +:+ b +:+ c.
Proof.
  induction a as [|x a IH]; [done|].
  change (String x ((a +:+ b) +:+ c) = String x (a +:+ b +:+ c)). by rewrite IH.
Qed.

Lemma rfind_None c s : Pathlib.rfind c s = None ↔ Pathlib.contains c s = false.
Proof.
  induction s as [|a s IH]; [done|].
  cbn [Pathlib.rfind Pathlib.contains].
  destruct (Pathlib.rfind c s) as [i|].
  - destruct (Pathlib.contains c s).
    + rewrite orb_true_r. done.
    + by destruct IH as [_ IH]; specialize (IH eq_refl).
  - rewrite (proj1 IH eq_refl), orb_false_r. by destruct (Ascii.eqb a c).
Qed.

(** Where the last occurrence of a character is, the string splits into what
    stands before it, the character, and a rest free of it. *)
Lemma rfind_split c s i :
  Pathlib.rfind c s = Some i →
  ∃ b, Pathlib.str_drop i s = String c b
       ∧ Pathlib.contains c b = false
       ∧ String.length (Pathlib.str_take i s) = i.
Proof.
  revert i. induction s as [|a s IH]; intros i; [done|].
  cbn [Pathlib.rfind]. destruct (Pathlib.rfind c s) as [j|] eqn:Hj.
  - intros [= <-]. destruct (IH j eq_refl) as (b & Hb & Hc & Hl).
    exists b. cbn [Pathlib.str_drop Pathlib.str_take String.length].
    by rewrite Hl.
  - destruct (Ascii.eqb a c) eqn:E; [|done]. intros [= <-].
    apply Ascii.eqb_eq in E as ->. exists s. split_and!; [done| |done].
    by apply rfind_None.
Qed.

(** A name made of a non-empty part, a dot, and a non-empty part without a
    dot has its extension start at that dot. *)
Lemma suffix_start_split a b :
  a ≠ "" → b ≠ "" → Pathlib.contains "." b = false →
  Pathlib.suffix_start (a +:+ "." +:+ b) = Some (String.length a).
Proof.
  intros Ha Hb Hdot. unfold Pathlib.suffix_start. rewrite rfind_app.
  assert (Pathlib.rfind "." ("." +:+ b) = Some 0%nat) as ->.
  { change ("." +:+ b) with (String "." b). cbn [Pathlib.rfind].
    by rewrite (proj2 (rfind_None _ _) Hdot). }
  rewrite Nat.add_0_r, string_length_app.
  change ("." +:+ b) with (String "." b). cbn [String.length].
  destruct a as [|x a]; [done|]. destruct b as [|y b]; [done|].
  cbn [String.length].
  assert ((0 <? S (String.length a))%nat = true) as -> by (apply Nat.ltb_lt; lia).
  assert ((S (String.length a)
           <? S (String.length a) + S (S (String.length b)) - 1)%nat = true) as ->
    by (apply Nat.ltb_lt; lia).
  done.
Qed.

(** A name that does not split in this way has no extension. *)
Lemma suffix_start_no_split n :
  (∀ a b, n = a +:+ "." +:+ b → Pathlib.contains "." b = false → a = "" ∨ b = "") →
  Pathlib.suffix_start n = None.
Proof.
  intros Hsplit. unfold Pathlib.suffix_start.
  destruct (Pathlib.rfind "." n) as [i|] eqn:Hi; [|done].
  destruct ((0 <? i)%nat && (i <? String.length n - 1)%nat) eqn:Hrange; [|done].
  apply andb_true_iff in Hrange as [H0%Nat.ltb_lt H1%Nat.ltb_lt].
  destruct (rfind_split _ _ _ Hi) as (b & Hdrop & Hdot & Hlen).
  destruct (Hsplit (Pathlib.str_take i n) b) as [E|E]; [|done|..].
  - change ("." +:+ b) with (String "." b). rewrite <- Hdrop.
    symmetry. apply str_take_drop.
  - rewrite E in Hlen. simpl in Hlen. lia.
  - pose proof (str_drop_length i n) as Hl. rewrite Hdrop, E in Hl.
    simpl in Hl. lia.
Qed.

(** [with_stem] on a proper file name puts the new stem in front of the old
    extension and changes nothing else. *)
Lemma with_stem_cleaned p :
  Pathlib.name p ≠ "" → Pathlib.contains Pathlib.sep (Pathlib.name p) = false →
  Pathlib.with_stem p (Pathlib.stem p +:+ "_cleaned")
  = Ok (Pathlib.mkPath (Pathlib.root p)
          (removelast (Pathlib.tail p)
           ++ [(Pathlib.stem p +:+ "_cleaned") +:+ Pathlib.suffix p])).
Proof.
  intros Hne Hsep. unfold Pathlib.with_stem, Pathlib.with_name.
  rewrite (proj2 (String.eqb_neq _ _) Hne).
  set (new := (Pathlib.stem p +:+ "_cleaned") +:+ Pathlib.suffix p).
  assert (Pathlib.contains "_" new = true) as Hus.
  { unfold new. rewrite !contains_app. simpl. by rewrite orb_true_r. }
  assert (Pathlib.contains Pathlib.sep new = false) as Hns.
  { unfold new. rewrite !contains_app. rewrite <- stem_suffix, contains_app in Hsep.
    apply orb_false_iff in Hsep as [-> ->]. done. }
  rewrite Hns.
  destruct (String.eqb new "") eqn:E1.
  { apply String.eqb_eq in E1. by rewrite E1 in Hus. }
  destruct (String.eqb new ".") eqn:E2.
  { apply String.eqb_eq in E2. by rewrite E2 in Hus. }
  done.
Qed.

(** When [with_stem] succeeds, this is the path it gives. *)
Lemma with_stem_ok_inv p new out :
  Pathlib.with_stem p new = Ok out →
  Pathlib.name p ≠ ""
  ∧ out = Pathlib.mkPath (Pathlib.root p)
            (removelast (Pathlib.tail p) ++ [new +:+ Pathlib.suffix p]).
Proof.
  unfold Pathlib.with_stem, Pathlib.with_name.
  destruct (String.eqb (Pathlib.name p) "") eqn:E; [done|].
  destruct (_ || _); [done|]. intros [= <-]. split; [|done].
  by apply String.eqb_neq.
Qed.

Lemma name_snoc r l x : Pathlib.name (Pathlib.mkPath r (l ++ [x])) = x.
Proof. unfold Pathlib.name. simpl. apply last_last. Qed.

Lemma parent_snoc r l x :
  Pathlib.parent (Pathlib.mkPath r (l ++ [x])) = Pathlib.mkPath r l.
Proof. unfold Pathlib.parent. simpl. by rewrite removelast_last. Qed.

(** * The claims *)

Example sample_grid_parses :
  @parse_csv plain_reader sales_csv sample_grid = Ok sample_frame.
Proof. reflexivity. Qed.

(** ** Loading *)

(** C7: when the chosen path does not exist, [load_csv] leaves through
    [sys.exit] with the message ["File not found: "] followed by the path,
    and so does the run: the world is exactly as it was, with no file
    written, nothing printed by a later stage and no chart shown. *)
Theorem missing_file_ends_run
    `{K : SortKind} `{P : DateParser} `{F : FloatSum} `{R : Renderer}
    `{C : CsvReader}
    (file : option string) (answer : string) (p : Path) (w : World) :
  chosen_path file answer = Some p →
  fs w !! p = None →
  load_csv p w
    = (Raise (SystemExit ("File not found: " +:+ Pathlib.to_string p)), w)
  ∧ main file answer w
    = (Raise (SystemExit ("File not found: " +:+ Pathlib.to_string p)), w).
Proof.
  intros Hp Hfs. split.
  - by apply load_csv_missing.
  - rewrite main_run_on, Hp. by apply run_on_missing.
Qed.

Lemma missing_file_ends_run_witness :
  chosen_path (Some "data/absent.csv") "" = Some (Pathlib.of_string "data/absent.csv")
  ∧ fs sample_world !! Pathlib.of_string "data/absent.csv" = None
  ∧ @main stable_argsort iso_date exact_sum plain_renderer plain_reader
      (Some "data/absent.csv") "" sample_world
    = (Raise (SystemExit "File not found: data/absent.csv"), sample_world).
Proof.
  split; [reflexivity|]. split; [vm_compute; reflexivity|].
  apply (@missing_file_ends_run stable_argsort iso_date exact_sum plain_renderer
           plain_reader
           (Some "data/absent.csv") "" (Pathlib.of_string "data/absent.csv")
           sample_world);
    vm_compute; reflexivity.
Defined.

(** ** Skipped aggregations *)

(** C5: on a table without a ["Product"] column or without a ["Sales"]
    column, [sales_by_product] returns normally and leaves the world as it
    was: nothing printed, no chart shown.  The same holds of
    [monthly_sales_trend] on a table without ["Date"] or without ["Sales"].
    Neither case raises. *)
Theorem missing_columns_skip
    `{K : SortKind} `{P : DateParser} `{F : FloatSum} `{R : Renderer}
    (w : World) (r : ref) (d : DataFrame) :
  heap w !! r = Some d →
  (("Product" ∉ columns d) ∨ ("Sales" ∉ columns d) →
     sales_by_product r w = (Ok tt, w))
  ∧ (("Date" ∉ columns d) ∨ ("Sales" ∉ columns d) →
     monthly_sales_trend r w = (Ok tt, w)).
Proof.
  intros Hr. split; intros Hmiss.
  - apply (sales_by_product_skip _ _ _ Hr).
    rewrite issubset_two, andb_false_iff, !has_column_false. done.
  - apply (monthly_sales_trend_skip _ _ _ Hr).
    rewrite issubset_two, andb_false_iff, !has_column_false. done.
Qed.

Lemma missing_columns_skip_witness :
  heap lower_case_world !! 0%nat = Some lower_case_frame
  ∧ ("Product" ∉ columns lower_case_frame)
  ∧ ("Date" ∉ columns lower_case_frame)
  ∧ @sales_by_product stable_argsort exact_sum plain_renderer 0%nat lower_case_world
    = (Ok tt, lower_case_world)
  ∧ @monthly_sales_trend iso_date exact_sum plain_renderer 0%nat lower_case_world
    = (Ok tt, lower_case_world).
Proof.
  assert (heap lower_case_world !! 0%nat = Some lower_case_frame) as Hr
    by (vm_compute; reflexivity).
  assert ("Product" ∉ columns lower_case_frame) as Hp
    by (apply has_column_false; reflexivity).
  assert ("Date" ∉ columns lower_case_frame) as Hd
    by (apply has_column_false; reflexivity).
  destruct (@missing_columns_skip stable_argsort iso_date exact_sum plain_renderer
              _ _ _ Hr) as [H1 H2].
  split_and!; [done..|apply H1; by left|apply H2; by left].
Defined.

(** C10: columns are recognised by exact comparison of names.  A name is
    found in a table exactly when one of its columns is that very string;
    when a table has a column that differs from ["Product"], ["Sales"] or
    ["Date"] in the case of its letters only, and not the name itself, the
    aggregation that needs the name is skipped as for a missing column. *)
Theorem column_names_are_case_sensitive
    `{K : SortKind} `{P : DateParser} `{F : FloatSum} `{R : Renderer}
    (w : World) (r : ref) (d : DataFrame) (n : string) :
  heap w !! r = Some d →
  (∃ c, (c ∈ columns d) ∧ case_variant c n) →
  n ∉ columns d →
  has_column d n = false
  ∧ (n = "Product" ∨ n = "Sales" → sales_by_product r w = (Ok tt, w))
  ∧ (n = "Date" ∨ n = "Sales" → monthly_sales_trend r w = (Ok tt, w)).
Proof.
  intros Hr _ Hn. split; [by apply has_column_false|].
  split; intros Hname.
  - apply (sales_by_product_skip _ _ _ Hr).
    rewrite issubset_two, andb_false_iff, !has_column_false.
    destruct Hname as [->| ->]; [by left|by right].
  - apply (monthly_sales_trend_skip _ _ _ Hr).
    rewrite issubset_two, andb_false_iff, !has_column_false.
    destruct Hname as [->| ->]; [by left|by right].
Qed.

Lemma column_names_are_case_sensitive_witness :
  heap lower_case_world !! 0%nat = Some lower_case_frame
  ∧ (("sales" ∈ columns lower_case_frame) ∧ case_variant "sales" "Sales")
  ∧ ("Sales" ∉ columns lower_case_frame)
  ∧ has_column lower_case_frame "Sales" = false
  ∧ @sales_by_product stable_argsort exact_sum plain_renderer 0%nat lower_case_world
    = (Ok tt, lower_case_world)
  ∧ @monthly_sales_trend iso_date exact_sum plain_renderer 0%nat lower_case_world
    = (Ok tt, lower_case_world).
Proof.
  assert (heap lower_case_world !! 0%nat = Some lower_case_frame) as Hr
    by (vm_compute; reflexivity).
  assert (("sales" ∈ columns lower_case_frame) ∧ case_variant "sales" "Sales") as Hv.
  { split.
    - apply has_column_elem. reflexivity.
    - split; [by intros [=]|reflexivity]. }
  assert ("Sales" ∉ columns lower_case_frame) as Hn
    by (apply has_column_false; reflexivity).
  destruct (@column_names_are_case_sensitive stable_argsort iso_date exact_sum
              plain_renderer _ _ _ "Sales" Hr (ex_intro _ "sales" Hv) Hn)
    as (H0 & H1 & H2).
  exact (conj Hr (conj Hv (conj Hn (conj H0
           (conj (H1 (or_intror eq_refl)) (H2 (or_intror eq_refl))))))).
Defined.

(** ** The loaded table is not modified *)

(** C9: the two aggregations leave the loaded table as it is.
    [sales_by_product] does not touch the store at all.
    [monthly_sales_trend] keeps every object that was in the store, the
    caller's table included, on every outcome; when it gets to convert the
    dates, the re-typed date column and the added month column go into a new
    object, distinct from the caller's. *)
Theorem aggregation_leaves_tables
    `{K : SortKind} `{P : DateParser} `{F : FloatSum} `{R : Renderer}
    (w : World) (r : ref) (d : DataFrame) :
  heap w !! r = Some d →
  heap (sales_by_product r w).2 = heap w
  ∧ (∀ r' d', heap w !! r' = Some d' →
       heap (monthly_sales_trend r w).2 !! r' = Some d')
  ∧ (∀ date s parsed,
       getitem d "Date" = Some date → getitem d "Sales" = Some s →
       to_datetime date = Ok parsed →
       fresh (dom (heap w)) ≠ r
       ∧ heap (monthly_sales_trend r w).2
         = <[fresh (dom (heap w)) := trend_frame d parsed]> (heap w)).
Proof.
  intros Hr. split_and!.
  - destruct (sales_by_product_frame r w) as (res & evs & ->). done.
  - intros r' d' Hr'.
    destruct (monthly_sales_trend_frame r w) as (res & h' & evs & -> & Hsub).
    simpl. by eapply lookup_weaken.
  - intros date s parsed Hd Hs Hparse. split.
    + intros E. rewrite <- E, fresh_ref_None in Hr. done.
    + rewrite (monthly_sales_trend_columns _ _ _ _ _ Hr Hd Hs), Hparse.
      cbv zeta. destruct (is_numeric_dtype (sdtype s)); [|done].
      by destruct (render _).
Qed.

Lemma aggregation_leaves_tables_witness :
  heap loaded_world !! 0%nat = Some sample_frame
  ∧ heap (@sales_by_product stable_argsort exact_sum plain_renderer
            0%nat loaded_world).2
    = heap loaded_world
  ∧ heap (@monthly_sales_trend iso_date exact_sum plain_renderer
            0%nat loaded_world).2 !! 0%nat
    = Some sample_frame.
Proof.
  assert (heap loaded_world !! 0%nat = Some sample_frame) as Hr
    by (vm_compute; reflexivity).
  destruct (@aggregation_leaves_tables stable_argsort iso_date exact_sum
              plain_renderer _ _ _ Hr)
    as (H1 & H2 & _).
  exact (conj Hr (conj H1 (H2 _ _ Hr))).
Defined.

(** ** The output path *)

(** C8: the output path is the input path with ["_cleaned"] put between the
    stem of its name and its extension.  For every path [main] can settle on
    that has a final component, [with_stem] succeeds and the directory is
    the input's.  The extension is what follows the last dot of the name,
    that dot included: a name [a.b], where [a] and [b] are not empty and [b]
    has no dot, becomes [a_cleaned.b]; a name that is not of this form (no
    dot, or no dot but a leading or a trailing one) has no extension and
    gets ["_cleaned"] at its end.  A run that completes has written that
    path and no other. *)
Theorem output_path_inserts_cleaned
    `{K : SortKind} `{P : DateParser} `{F : FloatSum} `{R : Renderer}
    `{C : CsvReader}
    (file : option string) (answer : string) (p : Path) :
  chosen_path file answer = Some p →
  Pathlib.tail p ≠ [] →
  ∃ out,
    Pathlib.with_stem p (Pathlib.stem p +:+ "_cleaned") = Ok out
    ∧ Pathlib.parent out = Pathlib.parent p
    ∧ (∀ a b, Pathlib.name p = a +:+ "." +:+ b →
              a ≠ "" → b ≠ "" → Pathlib.contains "." b = false →
              Pathlib.name out = a +:+ "_cleaned" +:+ "." +:+ b)
    ∧ ((∀ a b, Pathlib.name p = a +:+ "." +:+ b →
               Pathlib.contains "." b = false → a = "" ∨ b = "") →
       Pathlib.name out = Pathlib.name p +:+ "_cleaned")
    ∧ ∀ w w', main file answer w = (Ok tt, w') →
        is_Some (fs w' !! out)
        ∧ (∀ q, q ≠ out → fs w' !! q = fs w !! q)
        ∧ last (trace w') = Some (Print (Written out)).
Proof.
  intros Hp Htail.
  assert (∃ s, p = Pathlib.of_string s) as [s ->].
  { unfold chosen_path in Hp. destruct file as [s|].
    - exists s. congruence.
    - destruct (String.eqb answer ""); [done|]. exists answer. congruence. }
  destruct (of_string_name s Htail) as [Hname Hsep].
  pose proof (with_stem_cleaned _ Hname Hsep) as Hout.
  eexists. split; [exact Hout|].
  split; [apply parent_snoc|].
  rewrite name_snoc. unfold Pathlib.stem, Pathlib.suffix.
  set (n := Pathlib.name (Pathlib.of_string s)) in *.
  split_and!.
  - intros a b Hn Ha Hb Hdot.
    rewrite Hn, (suffix_start_split a b Ha Hb Hdot).
    by rewrite str_take_app, str_drop_app, append_assoc.
  - intros Hsplit. rewrite (suffix_start_no_split n Hsplit).
    apply append_empty_r.
  - intros w w' Hmain. rewrite main_run_on, Hp in Hmain.
    destruct (run_on_ok_inv _ _ _ Hmain) as (g & d & Hg & Hd & Hcols).
    rewrite (run_on_file _ _ _ _ Hg Hd Hcols) in Hmain.
    apply (after_report_ok_inv _ _ _ d) in Hmain; [|apply lookup_insert_eq].
    destruct Hmain as (out & evs & Hout' & Hfs & Htr & _).
    rewrite Hout in Hout'. injection Hout' as <-. simpl in Hfs.
    rewrite Hfs, Htr. split_and!.
    + rewrite lookup_insert_eq. by eexists.
    + intros q Hq. by rewrite lookup_insert_ne.
    + by rewrite !app_assoc, last_snoc.
Qed.

Lemma output_path_inserts_cleaned_witness :
  chosen_path (Some "data/sales.csv") "" = Some sales_csv
  ∧ Pathlib.tail sales_csv ≠ []
  ∧ Pathlib.name sales_csv = "sales" +:+ "." +:+ "csv"
  ∧ ∃ out,
      Pathlib.with_stem sales_csv (Pathlib.stem sales_csv +:+ "_cleaned") = Ok out
      ∧ Pathlib.parent out = Pathlib.parent sales_csv
      ∧ Pathlib.name out = "sales_cleaned.csv"
      ∧ ∀ w w',
          @main stable_argsort iso_date exact_sum plain_renderer plain_reader
            (Some "data/sales.csv") "" w = (Ok tt, w') →
          is_Some (fs w' !! out)
          ∧ (∀ q, q ≠ out → fs w' !! q = fs w !! q)
          ∧ last (trace w') = Some (Print (Written out)).
Proof.
  assert (Pathlib.tail sales_csv ≠ []) as Htail by (vm_compute; discriminate).
  assert ("sales" ≠ "") as Ha by discriminate.
  assert ("csv" ≠ "") as Hb by discriminate.
  split; [reflexivity|]. split; [exact Htail|]. split; [reflexivity|].
  destruct (@output_path_inserts_cleaned stable_argsort iso_date exact_sum
              plain_renderer plain_reader
              (Some "data/sales.csv") "" sales_csv eq_refl Htail)
    as (out & Hout & Hparent & Hext & _ & Hrun).
  exists out. split; [exact Hout|]. split; [exact Hparent|].
  split; [exact (Hext "sales" "csv" eq_refl Ha Hb eq_refl)|exact Hrun].
Defined.

Example sample_output_path :
  Pathlib.with_stem sales_csv (Pathlib.stem sales_csv +:+ "_cleaned")
  = Ok (Pathlib.of_string "data/sales_cleaned.csv").
Proof. reflexivity. Qed.

(** Names without an extension: no dot, a leading dot only, a trailing
    dot. *)
Example output_names_without_extension :
  Pathlib.with_stem (Pathlib.of_string "data/sales")
    (Pathlib.stem (Pathlib.of_string "data/sales") +:+ "_cleaned")
  = Ok (Pathlib.of_string "data/sales_cleaned")
  ∧ Pathlib.with_stem (Pathlib.of_string ".hidden")
      (Pathlib.stem (Pathlib.of_string ".hidden") +:+ "_cleaned")
    = Ok (Pathlib.of_string ".hidden_cleaned")
  ∧ Pathlib.with_stem (Pathlib.of_string "archive.tar.gz")
      (Pathlib.stem (Pathlib.of_string "archive.tar.gz") +:+ "_cleaned")
    = Ok (Pathlib.of_string "archive.tar_cleaned.gz").
Proof. split_and!; reflexivity. Qed.

(** ** Writing *)


(** With [index=True] every line would start with one more field. *)
Lemma to_grid_index d :
  to_grid d true
  = (NA :: map Str (columns d))
    :: map (fun i => Num (Z.of_nat i) :: row d i) (seq 0%nat (len d)).
Proof. reflexivity. Qed.

(** A run on a file the reader accepts completes when nothing stands in the
    way of the profiler, of the aggregations and of the write: the table has
    a column, the sales are numeric wherever an aggregation uses them, the
    dates convert, the plots are accepted, and the output path is not a
    directory. *)
Lemma run_completes
    `{K : SortKind} `{P : DateParser} `{F : FloatSum} `{R : Renderer}
    `{C : CsvReader}
    (file : option string) (answer : string) (p : Path)
    (g : list (list cell)) (d : DataFrame) (w : World) :
  chosen_path file answer = Some p →
  Pathlib.tail p ≠ [] →
  fs w !! p = Some (File g) →
  parse_csv p g = Ok d →
  data d ≠ [] →
  (∀ prod s, getitem d "Product" = Some prod → getitem d "Sales" = Some s →
        is_numeric_dtype (sdtype s) = true
        ∧ render (product_chart (product_totals prod s)) = Ok tt) →
  (∀ date s, getitem d "Date" = Some date → getitem d "Sales" = Some s →
             is_numeric_dtype (sdtype s) = true
             ∧ ∃ parsed,
                 to_datetime date = Ok parsed
                 ∧ render (trend_chart (month_totals (months_of parsed) s)) = Ok tt) →
  (∀ out, Pathlib.with_stem p (Pathlib.stem p +:+ "_cleaned") = Ok out →
          fs w !! out ≠ Some Dir) →
  ∃ w', main file answer w = (Ok tt, w').
Proof.
  intros Hp Htail Hg Hread Hcols Hprod Hdate Hout.
  assert (∃ s, p = Pathlib.of_string s) as [src ->].
  { unfold chosen_path in Hp. destruct file as [s|].
    - exists s. congruence.
    - destruct (String.eqb answer ""); [done|]. exists answer. congruence. }
  destruct (of_string_name src Htail) as [Hname Hsep].
  pose proof (with_stem_cleaned _ Hname Hsep) as Hstem.
  specialize (Hout _ Hstem).
  rewrite main_run_on, Hp, (run_on_file _ _ _ _ Hg Hread Hcols).
  set (r := fresh (dom (heap w))).
  set (w1 := mkWorld (<[r := d]> (heap w)) (fs w)
                     (trace w ++ report (Pathlib.of_string src) d)).
  assert (heap w1 !! r = Some d) as Hr1 by apply lookup_insert_eq.
  unfold after_report.
  (* the product totals *)
  assert (∃ evs, sales_by_product r w1
                 = (Ok tt, mkWorld (heap w1) (fs w1) (trace w1 ++ evs))) as [evs1 E1].
  { destruct (issubset ["Product"; "Sales"] d) eqn:Hsub.
    - pose proof Hsub as Hsub'.
      rewrite issubset_two, andb_true_iff, !getitem_has_column in Hsub'.
      destruct Hsub' as [[prod Hpr] [s Hs]].
      destruct (Hprod _ _ Hpr Hs) as [Hnum Hshow].
      eexists. apply (sales_by_product_shown _ _ _ _ _ Hr1 Hpr Hs Hnum Hshow).
    - exists []. by rewrite (sales_by_product_skip _ _ _ Hr1 Hsub), app_nil_r, world_eta. }
  rewrite (bind_ok _ _ _ _ _ E1).
  set (w2 := mkWorld (heap w1) (fs w1) (trace w1 ++ evs1)).
  assert (heap w2 !! r = Some d) as Hr2 by apply lookup_insert_eq.
  (* the monthly trend *)
  assert (∃ h evs, monthly_sales_trend r w2
                   = (Ok tt, mkWorld h (fs w2) (trace w2 ++ evs))
                   ∧ h !! r = Some d) as (h3 & evs2 & E2 & Hr3).
  { destruct (issubset ["Date"; "Sales"] d) eqn:Hsub.
    - pose proof Hsub as Hsub'.
      rewrite issubset_two, andb_true_iff, !getitem_has_column in Hsub'.
      destruct Hsub' as [[date Hd] [s Hs]].
      destruct (Hdate _ _ Hd Hs) as [Hnum (parsed & Hparse & Hshow)].
      assert (fresh (dom (heap w2)) ≠ r) as Hne.
      { intros E. pose proof (fresh_ref_None (heap w2)) as Hf.
        rewrite E, Hr2 in Hf. done. }
      eexists _, _. split.
      + rewrite (monthly_sales_trend_columns _ _ _ _ _ Hr2 Hd Hs), Hparse.
        cbv zeta. rewrite Hnum, Hshow. reflexivity.
      + by rewrite lookup_insert_ne.
    - exists (heap w2), []. split; [|done].
      by rewrite (monthly_sales_trend_skip _ _ _ Hr2 Hsub), app_nil_r, world_eta. }
  rewrite (bind_ok _ _ _ _ _ E2).
  rewrite Hstem.
  set (w3 := mkWorld h3 (fs w2) (trace w2 ++ evs2)).
  set (out := Pathlib.mkPath _ _) in *.
  rewrite (bind_ok _ _ _ _ _ (eq_refl : lift (Ok out) w3 = (Ok out, w3))).
  unfold to_csv, write_file, mbind, M_bind, print, emit, deref. simpl.
  rewrite Hr3.
  change (fs w3) with (fs w).
  destruct (fs w !! out) as [[|content]|]; [done|by eexists..].
Qed.



Example sample_output_file :
  fs sample_result !! Pathlib.of_string "data/sales_cleaned.csv"
  = Some (File sample_grid).
Proof. vm_compute. reflexivity. Qed.

(** ** Sales by product *)

(** C2, as stated, fails: a row without a product is left out of every
    group, and its sales are missing from the total of the groups.  Here the
    groups add up to 10 and the column to 15. *)
Lemma product_totals_drop_missing_product :
  getitem gap_frame "Product" = Some (mkSeries object [Str "A"; NA])
  ∧ getitem gap_frame "Sales" = Some (mkSeries int64 [Num 10; Num 5])
  ∧ @sales_by_product stable_argsort exact_sum plain_renderer 0%nat gap_world
    = (Ok tt, mkWorld (heap gap_world) (fs gap_world)
                [Print (SalesByProduct [(Str "A", 10)]);
                 Show (product_chart [(Str "A", 10)])])
  ∧ series_total [(Str "A", 10)] = 10
  ∧ int64_sum [Num 10; Num 5] = 15
  ∧ series_total
      (@product_totals stable_argsort exact_sum
         (mkSeries object [Str "A"; NA]) (mkSeries int64 [Num 10; Num 5]))
    ≠ int64_sum (values (mkSeries int64 [Num 10; Num 5])).
Proof.
  split_and!; try (vm_compute; reflexivity).
  vm_compute. discriminate.
Qed.

(** C2, amended: on a table with a ["Product"] column and a ["Sales"] column
    of integers, the per-product values, which are printed and then handed
    to the plot, add up to the sum of ["Sales"] over the rows whose
    ["Product"] is present; rows without a product are dropped by the
    grouping and do not count.  When no product is missing this is the sum
    of the whole column.  Sums are those of [int64], which wrap around.
    (Sums of a [float64] column are rounded, the groups' and the column's
    differently, and are not covered.) *)
Theorem product_totals_conserve_present_rows
    `{K : SortKind} `{!SortKindSpec K} `{F : FloatSum} `{R : Renderer}
    (w : World) (r : ref) (d : DataFrame) (p s : Series) :
  heap w !! r = Some d →
  getitem d "Product" = Some p →
  getitem d "Sales" = Some s →
  sdtype s = int64 →
  ∃ agg,
    sales_by_product r w
    = match render (product_chart agg) with
      | Ok _ =>
          (Ok tt, mkWorld (heap w) (fs w)
             (trace w ++ [Print (SalesByProduct agg); Show (product_chart agg)]))
      | Raise e =>
          (Raise e, mkWorld (heap w) (fs w)
             (trace w ++ [Print (SalesByProduct agg)]))
      end
    ∧ series_total agg = int64_sum (present_rows (values p) (values s))
    ∧ (Forall (fun k => notna k = true) (values p) →
       (length (values s) ≤ length (values p))%nat →
       series_total agg = int64_sum (values s)).
Proof.
  intros Hr Hp Hs Hint. exists (product_totals p s).
  assert (series_total (product_totals p s)
          = int64_sum (present_rows (values p) (values s))) as Htot.
  { unfold product_totals.
    rewrite (series_total_perm _ _ (sort_values_perm K false _)), Hint.
    apply groupby_sum_total. }
  split_and!.
  - apply (sales_by_product_numeric _ _ _ _ _ Hr Hp Hs). by rewrite Hint.
  - exact Htot.
  - intros Hall Hlen. by rewrite Htot, present_rows_all.
Qed.

Lemma product_totals_conserve_present_rows_witness :
  heap gap_world !! 0%nat = Some gap_frame
  ∧ getitem gap_frame "Product" = Some (mkSeries object [Str "A"; NA])
  ∧ getitem gap_frame "Sales" = Some (mkSeries int64 [Num 10; Num 5])
  ∧ ∃ agg,
      @sales_by_product stable_argsort exact_sum plain_renderer 0%nat gap_world
      = match plain_renderer (product_chart agg) with
        | Ok _ =>
            (Ok tt, mkWorld (heap gap_world) (fs gap_world)
               (trace gap_world
                ++ [Print (SalesByProduct agg); Show (product_chart agg)]))
        | Raise e =>
            (Raise e, mkWorld (heap gap_world) (fs gap_world)
               (trace gap_world ++ [Print (SalesByProduct agg)]))
        end
      ∧ series_total agg = int64_sum (present_rows [Str "A"; NA] [Num 10; Num 5])
      ∧ (Forall (fun k => notna k = true) [Str "A"; NA] →
         (length [Num 10; Num 5] ≤ length [Str "A"; NA])%nat →
         series_total agg = int64_sum [Num 10; Num 5]).
Proof.
  assert (heap gap_world !! 0%nat = Some gap_frame) as Hr
    by (vm_compute; reflexivity).
  split; [exact Hr|]. split; [reflexivity|]. split; [reflexivity|].
  exact (@product_totals_conserve_present_rows stable_argsort _ exact_sum
           plain_renderer gap_world 0%nat gap_frame _ _ Hr eq_refl eq_refl eq_refl).
Defined.

(** The totals of the first worked example of the specification. *)
Example sample_product_totals :
  @product_totals stable_argsort exact_sum
    (mkSeries object [Str "A"; Str "B"; Str "A"])
    (mkSeries int64 [Num 10; Num 5; Num 3])
  = [(Str "A", 13); (Str "B", 5)].
Proof. vm_compute. reflexivity. Qed.

(** A table in which no row has a product: the totals are printed, empty,
    and the bar plot of an empty series ends the call in an error. *)
Example no_product_no_chart :
  @sales_by_product stable_argsort exact_sum plain_renderer 0%nat blank_world
  = (Raise IndexError,
     mkWorld (heap blank_world) (fs blank_world) [Print (SalesByProduct [])]).
Proof. vm_compute. reflexivity. Qed.

(** ** Order of the product totals *)

Lemma groupby_sum_keys `{F : FloatSum} d keys vals :
  map fst (groupby_sum d keys vals) = group_keys keys.
Proof. unfold groupby_sum. rewrite map_map. simpl. apply map_id. Qed.

(** C4, as stated, fails on the tie-break.  Products B and A, met in this
    order, both total 5; the groups are formed in ascending key order, and
    the entry of A comes out before the entry of B, against the order of
    first appearance. *)
Lemma equal_totals_not_in_order_of_appearance :
  getitem tie_frame_BA "Product" = Some (mkSeries object [Str "B"; Str "A"])
  ∧ getitem tie_frame_BA "Sales" = Some (mkSeries int64 [Num 5; Num 5])
  ∧ @sales_by_product stable_argsort exact_sum plain_renderer 0%nat tie_world
    = (Ok tt, mkWorld (heap tie_world) (fs tie_world)
                [Print (SalesByProduct [(Str "A", 5); (Str "B", 5)]);
                 Show (product_chart [(Str "A", 5); (Str "B", 5)])])
  ∧ ¬ ties_by_first_seen [Str "B"; Str "A"]
        (@product_totals stable_argsort exact_sum
           (mkSeries object [Str "B"; Str "A"]) (mkSeries int64 [Num 5; Num 5])).
Proof.
  split_and!; try (vm_compute; reflexivity).
  intros Hties.
  specialize (Hties 0%nat 1%nat (Str "A") (Str "B") 5).
  assert (first_index [Str "B"; Str "A"] (Str "A")
          < first_index [Str "B"; Str "A"] (Str "B"))%nat as Hlt.
  { apply Hties; [lia|vm_compute; reflexivity..]. }
  vm_compute in Hlt. lia.
Qed.

(** No sort kind repairs it: the sort sees the groups in key order and
    cannot know which product was met first, so whatever it does with equal
    totals is wrong for one of two tables that differ only in the order of
    their rows. *)
Lemma no_sort_kind_orders_ties_by_appearance
    (K : SortKind) `{!SortKindSpec K} `{F : FloatSum} :
  ¬ (∀ p s : Series, ties_by_first_seen (values p) (product_totals p s)).
Proof.
  intros Hties.
  pose proof (Hties (mkSeries object [Str "B"; Str "A"])
                    (mkSeries int64 [Num 5; Num 5])) as HBA.
  pose proof (Hties (mkSeries object [Str "A"; Str "B"])
                    (mkSeries int64 [Num 5; Num 5])) as HAB.
  unfold product_totals in HBA, HAB. simpl in HBA, HAB.
  assert (groupby_sum int64 [Str "B"; Str "A"] [Num 5; Num 5]
          = [(Str "A", 5); (Str "B", 5)]) as EBA by (vm_compute; reflexivity).
  assert (groupby_sum int64 [Str "A"; Str "B"] [Num 5; Num 5]
          = [(Str "A", 5); (Str "B", 5)]) as EAB by (vm_compute; reflexivity).
  rewrite EBA in HBA. rewrite EAB in HAB.
  pose proof (sort_values_perm K false [(Str "A", 5); (Str "B", 5)]) as Hperm.
  symmetry in Hperm. apply Permutation_length_2_inv in Hperm as [E|E];
    rewrite E in HBA, HAB.
  - specialize (HBA 0%nat 1%nat (Str "A") (Str "B") 5).
    assert (1 < 0)%nat; [|lia]. apply HBA; [lia|reflexivity..].
  - specialize (HAB 0%nat 1%nat (Str "B") (Str "A") 5).
    assert (1 < 0)%nat; [|lia]. apply HAB; [lia|reflexivity..].
Qed.

(** C4, amended: on a table with a ["Product"] column and a numeric
    ["Sales"] column, the entries, which are printed and then handed to the
    plot, are in descending order of summed value; they are the per-product
    groups, each exactly once, and these are formed in ascending order of
    the product key.  The order among entries of equal value is left to the
    sort kind and does not follow first appearance. *)
Theorem product_totals_descending
    `{K : SortKind} `{!SortKindSpec K} `{F : FloatSum} `{R : Renderer}
    (w : World) (r : ref) (d : DataFrame) (p s : Series) :
  heap w !! r = Some d →
  getitem d "Product" = Some p →
  getitem d "Sales" = Some s →
  is_numeric_dtype (sdtype s) = true →
  ∃ agg,
    sales_by_product r w
    = match render (product_chart agg) with
      | Ok _ =>
          (Ok tt, mkWorld (heap w) (fs w)
             (trace w ++ [Print (SalesByProduct agg); Show (product_chart agg)]))
      | Raise e =>
          (Raise e, mkWorld (heap w) (fs w)
             (trace w ++ [Print (SalesByProduct agg)]))
      end
    ∧ descending agg
    ∧ agg ≡ₚ groupby_sum (sdtype s) (values p) (values s)
    ∧ Sorted cell_le (map fst (groupby_sum (sdtype s) (values p) (values s)))
    ∧ NoDup (map fst agg).
Proof.
  intros Hr Hp Hs Hnum. exists (product_totals p s). split_and!.
  - exact (sales_by_product_numeric _ _ _ _ _ Hr Hp Hs Hnum).
  - apply sort_values_descending, _.
  - apply sort_values_perm, _.
  - rewrite groupby_sum_keys. apply Sorted_group_keys.
  - unfold product_totals.
    rewrite (Permutation_map fst (sort_values_perm K false _)), groupby_sum_keys.
    apply NoDup_group_keys.
Qed.

Lemma product_totals_descending_witness :
  heap tie_world !! 0%nat = Some tie_frame_BA
  ∧ getitem tie_frame_BA "Product" = Some (mkSeries object [Str "B"; Str "A"])
  ∧ getitem tie_frame_BA "Sales" = Some (mkSeries int64 [Num 5; Num 5])
  ∧ is_numeric_dtype int64 = true
  ∧ ∃ agg,
      @sales_by_product stable_argsort exact_sum plain_renderer 0%nat tie_world
      = match plain_renderer (product_chart agg) with
        | Ok _ =>
            (Ok tt, mkWorld (heap tie_world) (fs tie_world)
               (trace tie_world
                ++ [Print (SalesByProduct agg); Show (product_chart agg)]))
        | Raise e =>
            (Raise e, mkWorld (heap tie_world) (fs tie_world)
               (trace tie_world ++ [Print (SalesByProduct agg)]))
        end
      ∧ descending agg
      ∧ agg ≡ₚ @groupby_sum exact_sum int64 [Str "B"; Str "A"] [Num 5; Num 5]
      ∧ Sorted cell_le
          (map fst (@groupby_sum exact_sum int64 [Str "B"; Str "A"] [Num 5; Num 5]))
      ∧ NoDup (map fst agg).
Proof.
  assert (heap tie_world !! 0%nat = Some tie_frame_BA) as Hr
    by (vm_compute; reflexivity).
  split; [exact Hr|]. split; [reflexivity|]. split; [reflexivity|].
  split; [reflexivity|].
  exact (@product_totals_descending stable_argsort _ exact_sum plain_renderer
           tie_world 0%nat tie_frame_BA _ _ Hr eq_refl eq_refl eq_refl).
Defined.

(** ** Monthly trend *)

Lemma month_of_in_month p c : month_of c = Month p ↔ in_month p c = true.
Proof.
  destruct c as [| | |t|]; simpl; try (split; discriminate).
  destruct p as [y m]. simpl. rewrite andb_true_iff, !Z.eqb_eq. split.
  - by intros [= -> ->].
  - by intros [-> ->].
Qed.

Lemma notna_month_of c : notna (month_of c) = is_stamp c.
Proof. by destruct c. Qed.

Lemma group_rows_month p dates vals :
  group_rows (Month p) (map month_of dates) vals = month_rows p dates vals.
Proof.
  unfold group_rows, month_rows. revert vals.
  induction dates as [|c dates IH]; intros [|v vals]; try done.
  change (map snd (filter (fun r => fst r = Month p)
                     ((month_of c, v) :: zip (map month_of dates) vals))
          = map snd (filter (fun r => in_month p (fst r) = true)
                       ((c, v) :: zip dates vals))).
  rewrite !filter_cons. simpl.
  destruct (decide (month_of c = Month p)) as [E|E],
           (decide (in_month p c = true)) as [E'|E']; simpl; rewrite ?IH; try done.
  - by apply month_of_in_month in E.
  - by apply month_of_in_month in E'.
Qed.

Lemma present_rows_months dates vals :
  present_rows (map month_of dates) vals = dated_rows dates vals.
Proof.
  unfold present_rows, dated_rows. revert vals.
  induction dates as [|c dates IH]; intros [|v vals]; try done.
  change (map snd (filter (fun r => notna (fst r) = true)
                     ((month_of c, v) :: zip (map month_of dates) vals))
          = map snd (filter (fun r => is_stamp (fst r) = true)
                       ((c, v) :: zip dates vals))).
  rewrite !filter_cons. simpl. rewrite notna_month_of.
  destruct (decide (is_stamp c = true)); simpl; by rewrite IH.
Qed.

Lemma dated_rows_all (dates vals : list cell) :
  Forall (fun c => is_stamp c = true) dates → (length vals ≤ length dates)%nat →
  dated_rows dates vals = vals.
Proof.
  intros Hall Hlen. rewrite <- present_rows_months. apply present_rows_all.
  - apply Forall_forall. intros k Hk%list_elem_of_In.
    apply in_map_iff in Hk as (c & <- & Hc%list_elem_of_In).
    rewrite notna_month_of. rewrite Forall_forall in Hall. by apply Hall.
  - by rewrite length_map.
Qed.

Lemma elem_of_month_keys k dates :
  k ∈ group_keys (map month_of dates) ↔
  ∃ t, Stamp t ∈ dates ∧ k = Month (mkPeriod (year t) (month t)).
Proof.
  rewrite elem_of_group_keys, list_elem_of_In, in_map_iff. split.
  - intros (Hk & c & <- & Hc). destruct c as [| | |t|]; try done.
    exists t. by rewrite list_elem_of_In.
  - intros (t & Ht & ->). split; [done|]. exists (Stamp t).
    by rewrite <- list_elem_of_In.
Qed.

(** Keys that are all months and in key order are months in chronological
    order. *)
Lemma sorted_months (l : list cell) :
  Forall (fun k => ∃ p, k = Month p) l → Sorted cell_le l →
  ∃ ps, l = map Month ps ∧ StronglySorted period_le ps.
Proof.
  intros Hall.
  assert (∃ ps, l = map Month ps) as [ps ->].
  { induction Hall as [|k l [p ->] _ [ps ->]]; [by exists []|]. by exists (p :: ps). }
  clear Hall. intros Hsorted.
  exists ps. split; [done|].
  apply Sorted_StronglySorted; [apply _|].
  induction ps as [|p ps IH]; [constructor|].
  simpl in Hsorted. apply Sorted_inv in Hsorted as [Hs Hhd].
  constructor; [by apply IH|].
  destruct ps as [|q ps]; constructor.
  apply HdRel_inv in Hhd. by apply period_leb_le.
Qed.

(** C3, as stated, fails on the conservation of the total: a row whose date
    is missing converts to no date at all, without an error, and is then
    left out of every month.  Here the months add up to 10 and the column to
    15. *)
Lemma month_totals_drop_missing_date :
  getitem gap_frame "Date" = Some (mkSeries object [Str "2023-01-05"; NA])
  ∧ getitem gap_frame "Sales" = Some (mkSeries int64 [Num 10; Num 5])
  ∧ @to_datetime iso_date (mkSeries object [Str "2023-01-05"; NA])
    = Ok (mkSeries datetime64 [Stamp (mkDatetime 2023 1 5 0); NA])
  ∧ (@monthly_sales_trend iso_date exact_sum plain_renderer 0%nat gap_world).1
    = Ok tt
  ∧ trace (@monthly_sales_trend iso_date exact_sum plain_renderer 0%nat gap_world).2
    = [Show (trend_chart [(Month (mkPeriod 2023 1), 10)])]
  ∧ series_total [(Month (mkPeriod 2023 1), 10)]
    ≠ int64_sum (values (mkSeries int64 [Num 10; Num 5])).
Proof.
  split_and!; try (vm_compute; reflexivity).
  vm_compute. discriminate.
Qed.

(** C3, amended: on a table with a ["Date"] column that converts and a
    numeric ["Sales"] column, the trend handed to the plot has one entry per
    calendar month (year and month, the day dropped) in which a date falls,
    holding the sum of ["Sales"] over the rows of that month, and the
    entries are in chronological order.  When the sales are integers, the
    entries add up to the sum of ["Sales"] over the rows that have a date:
    rows whose date is missing are dropped by the grouping and do not count,
    and when no date is missing the entries add up to the sum of the whole
    column.  Sums are those of [int64], which wrap around.  (Sums of a
    [float64] column are rounded, the months' and the column's differently,
    and are not covered.) *)
Theorem month_totals_by_month_in_order
    `{P : DateParser} `{F : FloatSum} `{R : Renderer}
    (w : World) (r : ref) (d : DataFrame) (date s parsed : Series) :
  heap w !! r = Some d →
  getitem d "Date" = Some date →
  getitem d "Sales" = Some s →
  to_datetime date = Ok parsed →
  is_numeric_dtype (sdtype s) = true →
  ∃ trend months,
    monthly_sales_trend r w
    = (let w' tr :=
         mkWorld (<[fresh (dom (heap w)) := trend_frame d parsed]> (heap w))
                 (fs w) tr in
       match render (trend_chart trend) with
       | Ok _ => (Ok tt, w' (trace w ++ [Show (trend_chart trend)]))
       | Raise e => (Raise e, w' (trace w))
       end)
    ∧ trend = map (fun m => (Month m,
                             sum_values (sdtype s)
                               (month_rows m (values parsed) (values s))))
                  months
    ∧ StronglySorted period_le months
    ∧ NoDup months
    ∧ (∀ m, m ∈ months ↔
            ∃ t, Stamp t ∈ values parsed ∧ m = mkPeriod (year t) (month t))
    ∧ (sdtype s = int64 →
       series_total trend = int64_sum (dated_rows (values parsed) (values s))
       ∧ (Forall (fun c => is_stamp c = true) (values parsed) →
          (length (values s) ≤ length (values parsed))%nat →
          series_total trend = int64_sum (values s))).
Proof.
  intros Hr Hd Hs Hparse Hnum.
  set (keys := map month_of (values parsed)).
  destruct (sorted_months (group_keys keys)) as (months & Hkeys & Hsorted).
  { apply Forall_forall. intros k Hk%elem_of_month_keys.
    destruct Hk as (t & _ & ->). by eexists. }
  { apply Sorted_group_keys. }
  assert (month_totals (months_of parsed) s
          = map (fun m => (Month m,
                           sum_values (sdtype s)
                             (month_rows m (values parsed) (values s)))) months)
    as Htrend.
  { unfold month_totals, groupby_sum, months_of. simpl. fold keys.
    rewrite Hkeys, map_map. apply map_ext. intros m.
    unfold keys. by rewrite group_rows_month. }
  exists (month_totals (months_of parsed) s), months. split_and!.
  - rewrite (monthly_sales_trend_columns _ _ _ _ _ Hr Hd Hs), Hparse.
    cbv zeta. by rewrite Hnum.
  - exact Htrend.
  - exact Hsorted.
  - apply (NoDup_fmap_1 Month). change (NoDup (map Month months)).
    rewrite <- Hkeys. apply NoDup_group_keys.
  - intros m. split.
    + intros Hm.
      assert (Month m ∈ group_keys keys) as Hin.
      { rewrite Hkeys. apply list_elem_of_In, in_map. by apply list_elem_of_In. }
      apply elem_of_month_keys in Hin as (t & Ht & [= ->]). by exists t.
    + intros (t & Ht & ->).
      assert (Month (mkPeriod (year t) (month t)) ∈ group_keys keys) as Hin
        by (apply elem_of_month_keys; by exists t).
      rewrite Hkeys in Hin.
      apply list_elem_of_In, in_map_iff in Hin as (m' & [= <-] & Hm').
      by apply list_elem_of_In.
  - intros Hint.
    assert (series_total (month_totals (months_of parsed) s)
            = int64_sum (dated_rows (values parsed) (values s))) as Htot.
    { unfold month_totals, months_of. simpl.
      by rewrite Hint, groupby_sum_total, present_rows_months. }
    split; [exact Htot|].
    intros Hall Hlen. by rewrite Htot, dated_rows_all.
Qed.

Lemma month_totals_by_month_in_order_witness :
  heap gap_world !! 0%nat = Some gap_frame
  ∧ getitem gap_frame "Date" = Some (mkSeries object [Str "2023-01-05"; NA])
  ∧ getitem gap_frame "Sales" = Some (mkSeries int64 [Num 10; Num 5])
  ∧ @to_datetime iso_date (mkSeries object [Str "2023-01-05"; NA])
    = Ok (mkSeries datetime64 [Stamp (mkDatetime 2023 1 5 0); NA])
  ∧ is_numeric_dtype int64 = true
  ∧ ∃ trend months,
      @monthly_sales_trend iso_date exact_sum plain_renderer 0%nat gap_world
      = (let w' tr :=
           mkWorld (<[fresh (dom (heap gap_world))
                      := trend_frame gap_frame
                           (mkSeries datetime64 [Stamp (mkDatetime 2023 1 5 0); NA])]>
                      (heap gap_world))
                   (fs gap_world) tr in
         match plain_renderer (trend_chart trend) with
         | Ok _ => (Ok tt, w' (trace gap_world ++ [Show (trend_chart trend)]))
         | Raise e => (Raise e, w' (trace gap_world))
         end)
      ∧ trend = map (fun m => (Month m,
                               @sum_values exact_sum int64
                                 (month_rows m [Stamp (mkDatetime 2023 1 5 0); NA]
                                             [Num 10; Num 5])))
                    months
      ∧ StronglySorted period_le months
      ∧ NoDup months
      ∧ (∀ m, m ∈ months ↔
              ∃ t, Stamp t ∈ [Stamp (mkDatetime 2023 1 5 0); NA]
                   ∧ m = mkPeriod (year t) (month t))
      ∧ (int64 = int64 →
         series_total trend
         = int64_sum (dated_rows [Stamp (mkDatetime 2023 1 5 0); NA]
                                 [Num 10; Num 5])
         ∧ (Forall (fun c => is_stamp c = true) [Stamp (mkDatetime 2023 1 5 0); NA] →
            (length [Num 10; Num 5] ≤ length [Stamp (mkDatetime 2023 1 5 0); NA])%nat →
            series_total trend = int64_sum [Num 10; Num 5])).
Proof.
  assert (heap gap_world !! 0%nat = Some gap_frame) as Hr
    by (vm_compute; reflexivity).
  split; [exact Hr|]. split; [reflexivity|]. split; [reflexivity|].
  split; [reflexivity|]. split; [reflexivity|].
  exact (@month_totals_by_month_in_order iso_date exact_sum plain_renderer
           gap_world 0%nat gap_frame _ _ _ Hr eq_refl eq_refl eq_refl eq_refl).
Defined.

(** The totals of the second worked example of the specification. *)
Example sample_month_totals :
  @month_totals exact_sum
    (months_of (mkSeries datetime64
                  [Stamp (mkDatetime 2023 1 5 0); Stamp (mkDatetime 2023 1 20 0);
                   Stamp (mkDatetime 2023 2 1 0)]))
    (mkSeries int64 [Num 10; Num 5; Num 7])
  = [(Month (mkPeriod 2023 1), 15); (Month (mkPeriod 2023 2), 7)].
Proof. vm_compute. reflexivity. Qed.

(** A table in which no row has a date: the trend is empty, and the line
    plot of an empty series ends the call in an error. *)
Example no_date_no_chart :
  (@monthly_sales_trend iso_date exact_sum plain_renderer 0%nat blank_world).1
  = Raise ValueError
  ∧ trace (@monthly_sales_trend iso_date exact_sum plain_renderer
             0%nat blank_world).2 = [].
Proof. split; vm_compute; reflexivity. Qed.

(** ** Dates that do not parse *)

(** A text the parser rejects makes the conversion of the whole column fail,
    with the error of a rejected text. *)
Lemma to_datetime_unparseable `{P : DateParser}
    (date : Series) (text : string) (e : exn) :
  Forall (fun c => file_cell c = true) (values date) →
  Str text ∈ values date →
  parse_datetime_string (values date) text = Raise e →
  ∃ bad e', to_datetime date = Raise e'
            ∧ Str bad ∈ values date
            ∧ parse_datetime_string (values date) bad = Raise e'.
Proof.
  intros Hcells Hin Hparse.
  destruct (collect_raise (to_datetime_cell (values date)) (values date) (Str text)
              e Hin) as (c & e' & Hcollect & Hc & He).
  { simpl. by rewrite Hparse. }
  rewrite Forall_forall in Hcells. specialize (Hcells c Hc).
  destruct c as [|z|bad|t|p]; simpl in He, Hcells; try done.
  exists bad, e'. unfold to_datetime. rewrite Hcollect. split_and!; [done..|].
  destruct (parse_datetime_string (values date) bad) as [[t|]|e0]; congruence.
Qed.

Lemma elem_of_report_show p d c : Show c ∈ report p d → False.
Proof.
  unfold report. rewrite !elem_of_cons, elem_of_nil.
  intros [Hc|[Hc|[Hc|[Hc|[]]]]]; discriminate.
Qed.

(** C6: when the ["Date"] column of a table that also has ["Sales"] holds a
    text that [pd.to_datetime] rejects, the conversion of the column fails
    with the error of a rejected text, and [monthly_sales_trend] raises it:
    no trend is computed for the rows that did convert, nothing is plotted,
    no file is touched.  [main] has no handler: a run on a file holding that
    table ends in an error, writes no file and shows no trend; the error is
    that of the rejected text whenever the stage before gets through (the
    table has no ["Product"] column, or its totals are numeric and the plot
    accepts them). *)
Theorem unparseable_date_ends_run
    `{K : SortKind} `{P : DateParser} `{F : FloatSum} `{R : Renderer}
    `{C : CsvReader}
    (d : DataFrame) (date s : Series) (text : string) (e : exn) :
  getitem d "Date" = Some date →
  getitem d "Sales" = Some s →
  Forall (fun c => file_cell c = true) (values date) →
  Str text ∈ values date →
  parse_datetime_string (values date) text = Raise e →
  ∃ bad e',
    Str bad ∈ values date
    ∧ parse_datetime_string (values date) bad = Raise e'
    ∧ to_datetime date = Raise e'
    ∧ (∀ w r, heap w !! r = Some d →
         monthly_sales_trend r w
         = (Raise e',
            mkWorld (<[fresh (dom (heap w)) := d]> (heap w)) (fs w) (trace w)))
    ∧ (∀ file answer p g w,
         chosen_path file answer = Some p →
         fs w !! p = Some (File g) →
         parse_csv p g = Ok d →
         ∃ e'' w' evs,
           main file answer w = (Raise e'', w')
           ∧ fs w' = fs w
           ∧ trace w' = trace w ++ evs
           ∧ (∀ c, Show c ∈ evs → kind c = bar)
           ∧ ((∀ prod, getitem d "Product" = Some prod →
                 is_numeric_dtype (sdtype s) = true
                 ∧ render (product_chart (product_totals prod s)) = Ok tt) →
              e'' = e')).
Proof.
  intros Hd Hs Hcells Hin Hparse.
  destruct (to_datetime_unparseable date text e Hcells Hin Hparse)
    as (bad & e' & Hraise & Hbad & Hnone).
  assert (∀ w r, heap w !! r = Some d →
            monthly_sales_trend r w
            = (Raise e',
               mkWorld (<[fresh (dom (heap w)) := d]> (heap w)) (fs w) (trace w)))
    as Htrend.
  { intros w r Hr.
    by rewrite (monthly_sales_trend_columns _ _ _ _ _ Hr Hd Hs), Hraise. }
  exists bad, e'. split_and!; [done..|].
  intros file answer p g w Hp Hg Hread.
  rewrite main_run_on, Hp,
    (run_on_file _ _ _ _ Hg Hread (getitem_columns _ _ _ Hd)).
  set (r := fresh (dom (heap w))).
  set (w1 := mkWorld (<[r := d]> (heap w)) (fs w) (trace w ++ report p d)).
  assert (heap w1 !! r = Some d) as Hr by apply lookup_insert_eq.
  unfold after_report.
  destruct (getitem d "Product") as [prod|] eqn:Hprod.
  - pose proof (sales_by_product_columns _ _ _ _ _ Hr Hprod Hs) as Hsales.
    destruct (is_numeric_dtype (sdtype s)) eqn:Hnum.
    + destruct (render (product_chart (product_totals prod s))) as [[]|e1] eqn:Hshow.
      * rewrite (bind_ok _ _ _ _ _ Hsales).
        erewrite bind_raise; [|by apply Htrend].
        eexists e', _,
          (report p d ++ [Print (SalesByProduct (product_totals prod s));
                          Show (product_chart (product_totals prod s))]).
        split; [reflexivity|]. split; [done|]. split; [by rewrite app_assoc|].
        split; [|done].
        intros c. rewrite !elem_of_app, !elem_of_cons, elem_of_nil.
        intros [Hc|[Hc|[Hc|[]]]]; try done.
        -- by apply elem_of_report_show in Hc.
        -- by injection Hc as ->.
      * rewrite (bind_raise _ _ _ _ _ Hsales).
        eexists e1, _,
          (report p d ++ [Print (SalesByProduct (product_totals prod s))]).
        split; [reflexivity|]. split; [done|]. split; [by rewrite app_assoc|].
        split.
        -- intros c. rewrite !elem_of_app, !elem_of_cons, elem_of_nil.
           intros [Hc|[Hc|[]]]; try done.
           by apply elem_of_report_show in Hc.
        -- intros Hget. destruct (Hget prod eq_refl) as [_ Hok]. congruence.
    + rewrite (bind_raise _ _ _ _ _ Hsales).
      eexists TypeError, _, (report p d).
      split; [reflexivity|]. split; [done|]. split; [done|]. split.
      * intros c Hc. by apply elem_of_report_show in Hc.
      * intros Hget. by destruct (Hget prod eq_refl) as [? _].
  - assert (issubset ["Product"; "Sales"] d = false) as Hskip.
    { rewrite issubset_two. apply andb_false_iff. left.
      destruct (has_column d "Product") eqn:E; [|done].
      apply getitem_has_column in E as [? E]. congruence. }
    rewrite (bind_ok _ _ _ _ _ (sales_by_product_skip _ _ _ Hr Hskip)).
    rewrite (bind_raise _ _ _ _ _ (Htrend _ _ Hr)).
    eexists e', _, (report p d).
    split; [reflexivity|]. split; [done|]. split; [done|]. split; [|done].
    intros c Hc. by apply elem_of_report_show in Hc.
Qed.

Lemma unparseable_date_ends_run_witness :
  getitem bad_date_frame "Date" = Some (mkSeries object [Str "2023-01-05"; Str "soon"])
  ∧ getitem bad_date_frame "Sales" = Some (mkSeries int64 [Num 10; Num 5])
  ∧ Forall (fun c => file_cell c = true) [Str "2023-01-05"; Str "soon"]
  ∧ (Str "soon" ∈ [Str "2023-01-05"; Str "soon"])
  ∧ iso_date [Str "2023-01-05"; Str "soon"] "soon" = Raise ValueError
  ∧ ∃ bad e',
      (Str bad ∈ [Str "2023-01-05"; Str "soon"])
      ∧ iso_date [Str "2023-01-05"; Str "soon"] bad = Raise e'
      ∧ @to_datetime iso_date (mkSeries object [Str "2023-01-05"; Str "soon"])
        = Raise e'
      ∧ (∀ w r, heap w !! r = Some bad_date_frame →
           @monthly_sales_trend iso_date exact_sum plain_renderer r w
           = (Raise e',
              mkWorld (<[fresh (dom (heap w)) := bad_date_frame]> (heap w))
                      (fs w) (trace w)))
      ∧ (∀ file answer p g w,
           chosen_path file answer = Some p →
           fs w !! p = Some (File g) →
           @parse_csv plain_reader p g = Ok bad_date_frame →
           ∃ e'' w' evs,
             @main stable_argsort iso_date exact_sum plain_renderer plain_reader
               file answer w
             = (Raise e'', w')
             ∧ fs w' = fs w
             ∧ trace w' = trace w ++ evs
             ∧ (∀ c, Show c ∈ evs → kind c = bar)
             ∧ ((∀ prod, getitem bad_date_frame "Product" = Some prod →
                   is_numeric_dtype int64 = true
                   ∧ plain_renderer
                       (product_chart
                          (@product_totals stable_argsort exact_sum prod
                             (mkSeries int64 [Num 10; Num 5]))) = Ok tt) →
                e'' = e')).
Proof.
  assert (Forall (fun c => file_cell c = true) [Str "2023-01-05"; Str "soon"])
    as Hcells by (repeat constructor).
  assert (Str "soon" ∈ [Str "2023-01-05"; Str "soon"]) as Hin
    by (right; left).
  split; [reflexivity|]. split; [reflexivity|]. split; [exact Hcells|].
  split; [exact Hin|]. split; [reflexivity|].
  exact (@unparseable_date_ends_run stable_argsort iso_date exact_sum
           plain_renderer plain_reader bad_date_frame
           _ _ "soon" ValueError eq_refl eq_refl Hcells Hin eq_refl).
Defined.

(** The run on the sample file with a bad date: the format of the column is
    that of its first date, the text that does not match it raises a
    [ValueError], and the file system is as it was. *)
Example bad_date_run :
  @parse_csv plain_reader sales_csv bad_date_grid = Ok bad_date_frame
  ∧ (@main stable_argsort iso_date exact_sum plain_renderer plain_reader
       (Some "data/sales.csv") "" bad_date_world).1
    = Raise ValueError
  ∧ fs (@main stable_argsort iso_date exact_sum plain_renderer plain_reader
          (Some "data/sales.csv") "" bad_date_world).2
    = fs bad_date_world.
Proof. split_and!; vm_compute; reflexivity. Qed.

(** * Further properties *)

(** ** The order of keys is a total order *)

Lemma string_leb_trans s1 s2 s3 :
  String.leb s1 s2 = true → String.leb s2 s3 = true → String.leb s1 s3 = true.
Proof.
  intros H12 H23. apply Is_true_true.
  apply (transitivity (R := String.le) (y := s2)); by apply Is_true_true.
Qed.

Global Instance cell_le_trans : Transitive cell_le.
Proof.
  intros a b c. unfold cell_le.
  destruct a as [|x|s|s|p], b as [|y|t|t|q], c as [|z|u|u|r]; simpl;
    try done.
  - rewrite !Z.leb_le. lia.
  - apply string_leb_trans.
  - rewrite !datetime_leb_spec. lia.
  - rewrite !period_leb_le. unfold period_le. lia.
Qed.

Global Instance cell_le_antisym : AntiSymm (=) cell_le.
Proof.
  intros a b. unfold cell_le.
  destruct a as [|x|s|s|p], b as [|y|t|t|q]; simpl; try done.
  - rewrite !Z.leb_le. intros. f_equal. lia.
  - intros H1 H2. f_equal. by apply String.leb_antisym.
  - rewrite !datetime_leb_spec. destruct s, t; simpl. intros. do 2 f_equal; lia.
  - rewrite !period_leb_le. unfold period_le. destruct p, q; simpl.
    intros. do 2 f_equal; lia.
Qed.

(** ** Grouping does not depend on the order of the rows *)

Lemma group_keys_row_order keys keys' :
  keys ≡ₚ keys' → group_keys keys = group_keys keys'.
Proof.
  intros Hp. apply (Sorted_unique cell_le); try apply Sorted_group_keys.
  apply NoDup_Permutation; try apply NoDup_group_keys.
  intros k. rewrite !elem_of_group_keys. by rewrite Hp.
Qed.

Lemma group_rows_rows k (rows : list (cell * cell)) :
  group_rows k (map fst rows) (map snd rows)
  = map snd (filter (fun r => fst r = k) rows).
Proof.
  unfold group_rows. do 2 f_equal. apply (zip_fst_snd rows).
Qed.

(** For integers: addition with wrap-around does not depend on the order
    of the terms. *)
Lemma groupby_sum_row_order `{F : FloatSum} (rows rows' : list (cell * cell)) :
  rows ≡ₚ rows' →
  groupby_sum int64 (map fst rows) (map snd rows)
  = groupby_sum int64 (map fst rows') (map snd rows').
Proof.
  intros Hp. unfold groupby_sum.
  rewrite (group_keys_row_order (map fst rows) (map fst rows'))
    by (by apply Permutation_map).
  apply map_ext. intros k. f_equal. cbn [sum_values].
  rewrite !int64_sum_wrap, !group_rows_rows. f_equal.
  apply zsum_perm. do 2 apply Permutation_map. by rewrite Hp.
Qed.

(** X6: with sales that are integers, the product totals do not depend on
    the order in which the rows of the table come: two tables whose
    (product, sales) rows are the same up to their order give the same
    series.  (With floats the sum of a group is rounded addition by addition
    and may depend on the order of its rows.) *)
Theorem product_totals_row_order `{K : SortKind} `{F : FloatSum}
    (dp : dtype) (rows rows' : list (cell * cell)) :
  rows ≡ₚ rows' →
  product_totals (mkSeries dp (map fst rows)) (mkSeries int64 (map snd rows))
  = product_totals (mkSeries dp (map fst rows')) (mkSeries int64 (map snd rows')).
Proof.
  intros Hp. unfold product_totals. simpl.
  by rewrite (groupby_sum_row_order rows rows' Hp).
Qed.

Lemma product_totals_row_order_witness :
  [(Str "B", Num 5); (Str "A", Num 3); (Str "B", Num 1)]
    ≡ₚ [(Str "A", Num 3); (Str "B", Num 1); (Str "B", Num 5)]
  ∧ @product_totals stable_argsort exact_sum
      (mkSeries object [Str "B"; Str "A"; Str "B"]) (mkSeries int64 [Num 5; Num 3; Num 1])
    = @product_totals stable_argsort exact_sum
        (mkSeries object [Str "A"; Str "B"; Str "B"]) (mkSeries int64 [Num 3; Num 1; Num 5]).
Proof.
  assert ([(Str "B", Num 5); (Str "A", Num 3); (Str "B", Num 1)]
            ≡ₚ [(Str "A", Num 3); (Str "B", Num 1); (Str "B", Num 5)]) as Hp.
  { apply (Permutation_cons_app [(Str "A", Num 3); (Str "B", Num 1)] []).
    by rewrite app_nil_r. }
  split; [exact Hp|].
  exact (@product_totals_row_order stable_argsort exact_sum object _ _ Hp).
Defined.

(** X8: with sales that are integers, the monthly totals do not depend on
    the order of the rows either: the same (date, sales) rows in another
    order give the same trend. *)
Theorem month_totals_row_order `{F : FloatSum}
    (rows rows' : list (cell * cell)) :
  rows ≡ₚ rows' →
  month_totals (months_of (mkSeries datetime64 (map fst rows)))
               (mkSeries int64 (map snd rows))
  = month_totals (months_of (mkSeries datetime64 (map fst rows')))
                 (mkSeries int64 (map snd rows')).
Proof.
  intros Hp. unfold month_totals, months_of. simpl.
  set (f := fun r : cell * cell => (month_of (fst r), snd r)).
  assert (∀ l, map month_of (map fst l) = map fst (map f l)) as Hk
    by (intros; by rewrite !map_map).
  assert (∀ l : list (cell * cell), map snd l = map snd (map f l)) as Hv
    by (intros; by rewrite map_map).
  rewrite !Hk, (Hv rows), (Hv rows').
  apply groupby_sum_row_order. by apply Permutation_map.
Qed.

Lemma month_totals_row_order_witness :
  [(Stamp (mkDatetime 2023 2 1 0), Num 7); (Stamp (mkDatetime 2023 1 5 0), Num 10)]
    ≡ₚ [(Stamp (mkDatetime 2023 1 5 0), Num 10); (Stamp (mkDatetime 2023 2 1 0), Num 7)]
  ∧ @month_totals exact_sum
      (months_of (mkSeries datetime64
                    [Stamp (mkDatetime 2023 2 1 0); Stamp (mkDatetime 2023 1 5 0)]))
      (mkSeries int64 [Num 7; Num 10])
    = @month_totals exact_sum
        (months_of (mkSeries datetime64
                      [Stamp (mkDatetime 2023 1 5 0); Stamp (mkDatetime 2023 2 1 0)]))
        (mkSeries int64 [Num 10; Num 7]).
Proof.
  assert ([(Stamp (mkDatetime 2023 2 1 0), Num 7); (Stamp (mkDatetime 2023 1 5 0), Num 10)]
    ≡ₚ [(Stamp (mkDatetime 2023 1 5 0), Num 10); (Stamp (mkDatetime 2023 2 1 0), Num 7)])
    as Hp by apply perm_swap.
  split; [exact Hp|].
  exact (@month_totals_row_order exact_sum _ _ Hp).
Defined.

(** ** What the product totals hold *)

(** X5: the printed totals hold exactly one entry for every product that
    occurs in the ["Product"] column, and none for a missing product; the
    value of an entry is the sum of ["Sales"] over the rows of its
    product. *)
Theorem product_totals_entries `{K : SortKind} `{!SortKindSpec K} `{F : FloatSum}
    (p s : Series) (k : cell) (v : Z) :
  ((k, v) ∈ product_totals p s ↔
     notna k = true ∧ k ∈ values p
     ∧ v = sum_values (sdtype s) (group_rows k (values p) (values s)))
  ∧ NoDup (map fst (product_totals p s)).
Proof.
  split.
  - unfold product_totals. rewrite (sort_values_perm K false _).
    unfold groupby_sum. rewrite list_elem_of_In, in_map_iff. split.
    + intros (k' & [= <- <-] & Hk%list_elem_of_In%elem_of_group_keys). tauto.
    + intros (Hk & Hin & ->). exists k. split; [done|].
      apply list_elem_of_In, elem_of_group_keys. done.
  - unfold product_totals.
    rewrite (Permutation_map fst (sort_values_perm K false _)), groupby_sum_keys.
    apply NoDup_group_keys.
Qed.

Lemma product_totals_entries_witness :
  (((Str "A", 13) ∈ @product_totals stable_argsort exact_sum
       (mkSeries object [Str "A"; Str "B"; Str "A"])
       (mkSeries int64 [Num 10; Num 5; Num 3]))
   ↔ notna (Str "A") = true ∧ (Str "A" ∈ [Str "A"; Str "B"; Str "A"])
     ∧ 13 = @sum_values exact_sum int64
              (group_rows (Str "A") [Str "A"; Str "B"; Str "A"] [Num 10; Num 5; Num 3]))
  ∧ NoDup (map fst (@product_totals stable_argsort exact_sum
       (mkSeries object [Str "A"; Str "B"; Str "A"])
       (mkSeries int64 [Num 10; Num 5; Num 3]))).
Proof.
  exact (@product_totals_entries stable_argsort _ exact_sum
           (mkSeries object [Str "A"; Str "B"; Str "A"])
           (mkSeries int64 [Num 10; Num 5; Num 3]) (Str "A") 13).
Defined.

Lemma descending_entries (agg : list (cell * Z)) :
  descending agg → StronglySorted (fun e1 e2 : cell * Z => snd e2 ≤ snd e1) agg.
Proof.
  unfold descending. induction agg as [|e agg IH]; simpl; intros Hd; [constructor|].
  apply StronglySorted_inv in Hd as [Hl Hall]. constructor; [by apply IH|].
  apply Forall_forall. intros e' He'.
  apply (proj1 (Forall_forall _ _) Hall).
  by apply list_elem_of_In, in_map, list_elem_of_In.
Qed.

(** X7: when no two products have the same total, the printed series is
    fully determined: every sort kind gives the same order.  Only ties are
    left to the sort kind. *)
Theorem distinct_totals_fix_the_order
    (K1 K2 : SortKind) `{!SortKindSpec K1} `{!SortKindSpec K2} `{F : FloatSum}
    (p s : Series) :
  NoDup (map snd (groupby_sum (sdtype s) (values p) (values s))) →
  @product_totals K1 F p s = @product_totals K2 F p s.
Proof.
  intros Hnd. unfold product_totals.
  set (g := groupby_sum (sdtype s) (values p) (values s)) in *.
  apply (StronglySorted_unique_strong (fun e1 e2 : cell * Z => snd e2 ≤ snd e1)).
  - intros [k1 v1] [k2 v2] H1 H2 Hle1 Hle2. simpl in *.
    assert (v1 = v2) as -> by lia.
    rewrite (sort_values_perm K1 false g) in H1.
    rewrite (sort_values_perm K2 false g) in H2.
    f_equal. clear Hle1 Hle2.
    induction g as [|[k v] g IH]; [by apply elem_of_nil in H1|].
    simpl in Hnd. apply NoDup_cons in Hnd as [Hv Hnd].
    apply elem_of_cons in H1. apply elem_of_cons in H2.
    destruct H1 as [E1|H1], H2 as [E2|H2].
    + congruence.
    + injection E1 as -> ->. destruct Hv.
      apply list_elem_of_In, in_map_iff. exists (k2, v).
      split; [done|]. by apply list_elem_of_In.
    + injection E2 as -> ->. destruct Hv.
      apply list_elem_of_In, in_map_iff. exists (k1, v).
      split; [done|]. by apply list_elem_of_In.
    + by apply IH.
  - apply descending_entries, sort_values_descending, _.
  - apply descending_entries, sort_values_descending, _.
  - by rewrite (sort_values_perm K1 false g), (sort_values_perm K2 false g).
Qed.

Global Instance reversing_argsort_spec : SortKindSpec reversing_argsort.
Proof.
  split; intros l; unfold argsort, reversing_argsort.
  - by rewrite merge_sort_Permutation, reverse_Permutation.
  - change (map (fun i => nth i l 0)) with (fmap (M := list) (fun i => nth i l 0)).
    eapply (Sorted_fmap _ (le_at l) Z.le); [by intros ??|].
    apply Sorted_merge_sort. intros i j. unfold le_at. lia.
Qed.

(** The two kinds disagree on products with equal totals. *)
Example sort_kinds_differ_on_ties :
  @product_totals stable_argsort exact_sum
    (mkSeries object [Str "B"; Str "A"]) (mkSeries int64 [Num 5; Num 5])
  = [(Str "A", 5); (Str "B", 5)]
  ∧ @product_totals reversing_argsort exact_sum
      (mkSeries object [Str "B"; Str "A"]) (mkSeries int64 [Num 5; Num 5])
    = [(Str "B", 5); (Str "A", 5)].
Proof. split; vm_compute; reflexivity. Qed.

(** ** Choosing the file *)

(** X1: the file dialog is consulted only when no [--file] argument is
    given.  Dismissing it ends the run through [sys.exit] with the message
    [" No file selected. Exiting."], the world unchanged; any other answer
    is used exactly as a [--file] argument would be. *)
Theorem dialog_stands_in_for_file_argument
    `{K : SortKind} `{P : DateParser} `{F : FloatSum} `{R : Renderer}
    `{C : CsvReader}
    (w : World) :
  main None "" w = (Raise (SystemExit " No file selected. Exiting."), w)
  ∧ (∀ (c : ascii) (rest other : string),
       main None (String c rest) w = main (Some (String c rest)) other w)
  ∧ (∀ (s a1 a2 : string), main (Some s) a1 w = main (Some s) a2 w).
Proof.
  split_and!.
  - by rewrite main_run_on.
  - intros c rest other. by rewrite !main_run_on.
  - intros s a1 a2. by rewrite !main_run_on.
Qed.

(** ** Loading *)



(** The sample file has three rows. *)
Example sample_rows_reported :
  len sample_frame = 3%nat ∧ Pathlib.name sales_csv = "sales.csv".
Proof. split; reflexivity. Qed.




(** ** Profiling *)

Lemma isna_sum_names d : map fst (isna_sum d) = columns d.
Proof. unfold isna_sum, columns. rewrite map_map. by apply map_ext. Qed.

(** X4: [basic_eda] only reads and prints.  Whatever its outcome, the store
    and the files are as before.  On a table with at least one column it
    returns normally after printing, in this order, the column names, the
    number of missing values of every column (one count per column, in
    column order, none larger than the number of cells of its column), and
    the summary. *)
Theorem basic_eda_only_reports (r : nat) (w : World) (d : DataFrame) :
  heap w !! r = Some d →
  heap (basic_eda r w).2 = heap w
  ∧ fs (basic_eda r w).2 = fs w
  ∧ map fst (isna_sum d) = columns d
  ∧ Forall2 (fun c n => (snd n ≤ length (values (snd c)))%nat) (data d) (isna_sum d)
  ∧ (data d ≠ [] →
     basic_eda r w
     = (Ok tt, mkWorld (heap w) (fs w)
                 (trace w ++ [Print (Columns (columns d));
                              Print (MissingValues (isna_sum d));
                              Print (SummaryStats d)]))).
Proof.
  intros Hr.
  assert (∃ res evs, basic_eda r w
                     = (res, mkWorld (heap w) (fs w) (trace w ++ evs)))
    as (res & evs & E).
  { unfold basic_eda. rewrite (bind_ok _ _ _ _ _ (deref_ok _ _ _ Hr)).
    unfold mbind, M_bind, print, emit, raise. simpl.
    destruct (data d); simpl; rewrite <- ?app_assoc; by eexists _, _. }
  rewrite E. simpl. split_and!; try done.
  - apply isna_sum_names.
  - unfold isna_sum. apply Forall2_fmap_r, Forall_Forall2_diag, Forall_forall.
    intros c _. simpl. apply length_filter.
  - intros Hne. rewrite <- E. by apply basic_eda_ok.
Qed.

Lemma basic_eda_only_reports_witness :
  heap loaded_world !! 0%nat = Some sample_frame
  ∧ heap (basic_eda 0%nat loaded_world).2 = heap loaded_world
  ∧ fs (basic_eda 0%nat loaded_world).2 = fs loaded_world
  ∧ map fst (isna_sum sample_frame) = columns sample_frame
  ∧ Forall2 (fun c n => (snd n ≤ length (values (snd c)))%nat)
            (data sample_frame) (isna_sum sample_frame)
  ∧ (data sample_frame ≠ [] →
     basic_eda 0%nat loaded_world
     = (Ok tt, mkWorld (heap loaded_world) (fs loaded_world)
                 (trace loaded_world
                  ++ [Print (Columns (columns sample_frame));
                      Print (MissingValues (isna_sum sample_frame));
                      Print (SummaryStats sample_frame)]))).
Proof.
  assert (heap loaded_world !! 0%nat = Some sample_frame) as Hr
    by (vm_compute; reflexivity).
  split; [exact Hr|].
  exact (basic_eda_only_reports 0%nat loaded_world sample_frame Hr).
Defined.

(** ** The run, step by step *)

Section steps.
Context `{K : SortKind} `{P : DateParser} `{F : FloatSum} `{R : Renderer}.

(** When [sales_by_product] returns, this is what it has done. *)
Lemma sales_by_product_ok_inv r w d w' :
  heap w !! r = Some d →
  sales_by_product r w = (Ok tt, w') →
  w' = mkWorld (heap w) (fs w) (trace w ++ product_events d).
Proof.
  intros Hr. unfold product_events.
  destruct (issubset ["Product"; "Sales"] d) eqn:Hsub.
  - rewrite issubset_two, andb_true_iff, !getitem_has_column in Hsub.
    destruct Hsub as [[p Hp] [s Hs]].
    rewrite (sales_by_product_columns _ _ _ _ _ Hr Hp Hs), Hp, Hs.
    destruct (is_numeric_dtype (sdtype s)); [|done].
    destruct (render _) as [[]|e]; [|done]. by intros [= <-].
  - rewrite (sales_by_product_skip _ _ _ Hr Hsub). intros [= <-].
    rewrite issubset_two, andb_false_iff in Hsub.
    assert (match getitem d "Product", getitem d "Sales" with
            | Some p, Some s =>
                [Print (SalesByProduct (product_totals p s));
                 Show (product_chart (product_totals p s))]
            | _, _ => []
            end = []) as ->.
    { destruct (getitem d "Product") eqn:Hp, (getitem d "Sales") eqn:Hs; try done.
      destruct Hsub as [Hsub|Hsub];
        [rewrite (proj2 (getitem_has_column d "Product")) in Hsub
        |rewrite (proj2 (getitem_has_column d "Sales")) in Hsub];
        try done; by eexists. }
    by rewrite app_nil_r, world_eta.
Qed.

(** When [monthly_sales_trend] returns, this is what it has done. *)
Lemma monthly_sales_trend_ok_inv r w d w' :
  heap w !! r = Some d →
  monthly_sales_trend r w = (Ok tt, w') →
  fs w' = fs w ∧ trace w' = trace w ++ trend_events d ∧ heap w ⊆ heap w'.
Proof.
  intros Hr. unfold trend_events.
  destruct (issubset ["Date"; "Sales"] d) eqn:Hsub.
  - rewrite issubset_two, andb_true_iff, !getitem_has_column in Hsub.
    destruct Hsub as [[date Hd] [s Hs]].
    rewrite (monthly_sales_trend_columns _ _ _ _ _ Hr Hd Hs), Hd, Hs.
    destruct (to_datetime date) as [parsed|e]; [|done]. cbv zeta.
    destruct (is_numeric_dtype (sdtype s)); [|done].
    destruct (render _) as [[]|e]; [|done]. intros [= <-]. simpl.
    split_and!; [done..|]. apply insert_subseteq, fresh_ref_None.
  - rewrite (monthly_sales_trend_skip _ _ _ Hr Hsub). intros [= <-].
    rewrite issubset_two, andb_false_iff in Hsub.
    assert (match getitem d "Date", getitem d "Sales" with
            | Some date, Some s =>
                match to_datetime date with
                | Ok parsed => [Show (trend_chart (month_totals (months_of parsed) s))]
                | Raise _ => []
                end
            | _, _ => []
            end = []) as ->.
    { destruct (getitem d "Date") eqn:Hd, (getitem d "Sales") eqn:Hs; try done.
      destruct Hsub as [Hsub|Hsub];
        [rewrite (proj2 (getitem_has_column d "Date")) in Hsub
        |rewrite (proj2 (getitem_has_column d "Sales")) in Hsub];
        try done; by eexists. }
    by rewrite app_nil_r.
Qed.

(** The part after the report either completes, having written the output
    file last, or fails without having written anything. *)
Lemma after_report_outcomes p r w d res w' :
  heap w !! r = Some d →
  after_report p r w = (res, w') →
  match res with
  | Raise _ => fs w' = fs w
  | Ok _ =>
      ∃ out,
        Pathlib.with_stem p (Pathlib.stem p +:+ "_cleaned") = Ok out
        ∧ fs w' = <[out := File (to_grid d false)]> (fs w)
        ∧ trace w' = trace w ++ product_events d ++ trend_events d
                     ++ [Print (Written out)]
  end.
Proof.
  intros Hr. unfold after_report.
  destruct (sales_by_product r w) as [[[]|e1] w1] eqn:E1.
  2:{ rewrite (bind_raise _ _ _ _ _ E1). intros [= <- <-].
      destruct (sales_by_product_frame r w) as (res1 & evs1 & E1').
      rewrite E1 in E1'. by injection E1' as _ ->. }
  rewrite (bind_ok _ _ _ _ _ E1).
  apply (sales_by_product_ok_inv _ _ _ _ Hr) in E1 as ->.
  set (w1 := mkWorld (heap w) (fs w) (trace w ++ product_events d)).
  assert (heap w1 !! r = Some d) as Hr1 by done.
  destruct (monthly_sales_trend r w1) as [[[]|e2] w2] eqn:E2.
  2:{ rewrite (bind_raise _ _ _ _ _ E2). intros [= <- <-].
      destruct (monthly_sales_trend_frame r w1) as (res2 & h2 & evs2 & E2' & _).
      rewrite E2 in E2'. by injection E2' as _ ->. }
  rewrite (bind_ok _ _ _ _ _ E2).
  apply (monthly_sales_trend_ok_inv _ _ _ _ Hr1) in E2 as (Hfs2 & Htr2 & Hsub2).
  destruct (Pathlib.with_stem p _) as [out|e3] eqn:E3.
  2:{ intros [= <- <-]. done. }
  rewrite (bind_ok _ _ _ _ _ (eq_refl : lift (Ok out) w2 = (Ok out, w2))).
  assert (heap w2 !! r = Some d) as Hr2 by (by eapply lookup_weaken).
  unfold to_csv, write_file, mbind, M_bind, print, emit, deref.
  rewrite Hr2. simpl. rewrite Hfs2. simpl.
  destruct (fs w !! out) as [[|content]|].
  - intros [= <- <-]. done.
  - intros [= <- <-]. exists out. simpl. rewrite Htr2. simpl.
    by rewrite <- !app_assoc.
  - intros [= <- <-]. exists out. simpl. rewrite Htr2. simpl.
    by rewrite <- !app_assoc.
Qed.

End steps.

(** ** Failed runs *)



(** ** Completed runs *)

(** X12: what a completed run shows, in full and in order: the line of the
    loader, the three reports of the profiler, then the printed product
    totals and their bar chart if the table has ["Product"] and ["Sales"],
    then the line chart of the monthly trend if it has ["Date"] and
    ["Sales"], and last the line that names the written file.  Nothing else
    is printed or plotted. *)
Theorem completed_run_output
    `{K : SortKind} `{P : DateParser} `{F : FloatSum} `{R : Renderer}
    `{C : CsvReader}
    (file : option string) (answer : string) (w w' : World) :
  main file answer w = (Ok tt, w') →
  ∃ p g d out,
    chosen_path file answer = Some p
    ∧ fs w !! p = Some (File g)
    ∧ parse_csv p g = Ok d
    ∧ Pathlib.with_stem p (Pathlib.stem p +:+ "_cleaned") = Ok out
    ∧ trace w' = trace w ++ report p d ++ product_events d ++ trend_events d
                 ++ [Print (Written out)].
Proof.
  intros Hmain. rewrite main_run_on in Hmain.
  destruct (chosen_path file answer) as [p|] eqn:Hp; [|done].
  destruct (run_on_ok_inv _ _ _ Hmain) as (g & d & Hg & Hd & Hcols).
  rewrite (run_on_file _ _ _ _ Hg Hd Hcols) in Hmain.
  apply (after_report_outcomes _ _ _ d) in Hmain; [|apply lookup_insert_eq].
  destruct Hmain as (out & Hout & _ & Htr). simpl in Htr.
  exists p, g, d, out. split_and!; try done.
  by rewrite Htr, <- !app_assoc.
Qed.

Lemma completed_run_output_witness :
  @main stable_argsort iso_date exact_sum plain_renderer plain_reader
    (Some "data/sales.csv") "" sample_world
    = (Ok tt, sample_result)
  ∧ ∃ p g d out,
      chosen_path (Some "data/sales.csv") "" = Some p
      ∧ fs sample_world !! p = Some (File g)
      ∧ @parse_csv plain_reader p g = Ok d
      ∧ Pathlib.with_stem p (Pathlib.stem p +:+ "_cleaned") = Ok out
      ∧ trace sample_result
        = trace sample_world ++ report p d
          ++ @product_events stable_argsort exact_sum d
          ++ @trend_events iso_date exact_sum d
          ++ [Print (Written out)].
Proof.
  assert (@main stable_argsort iso_date exact_sum plain_renderer plain_reader
            (Some "data/sales.csv") "" sample_world
          = (Ok tt, sample_result)) as Hrun by (vm_compute; reflexivity).
  split; [exact Hrun|].
  exact (@completed_run_output stable_argsort iso_date exact_sum plain_renderer plain_reader
           _ _ _ _ Hrun).
Defined.

(** ** The output path and the input *)

(** The new name is longer than the old one, so it is another name. *)
Lemma cleaned_name_differs p :
  (Pathlib.stem p +:+ "_cleaned") +:+ Pathlib.suffix p ≠ Pathlib.name p.
Proof.
  intros E. apply (f_equal String.length) in E.
  rewrite <- stem_suffix, !string_length_app in E. simpl in E. lia.
Qed.

(** X13: a completed run leaves its input file in place, with its content:
    the output path is never the input path. *)
Theorem input_file_is_kept
    `{K : SortKind} `{P : DateParser} `{F : FloatSum} `{R : Renderer}
    `{C : CsvReader}
    (file : option string) (answer : string) (w w' : World) :
  main file answer w = (Ok tt, w') →
  ∃ p g out,
    chosen_path file answer = Some p
    ∧ Pathlib.with_stem p (Pathlib.stem p +:+ "_cleaned") = Ok out
    ∧ out ≠ p
    ∧ fs w !! p = Some (File g)
    ∧ fs w' !! p = Some (File g).
Proof.
  intros Hmain. rewrite main_run_on in Hmain.
  destruct (chosen_path file answer) as [p|] eqn:Hp; [|done].
  destruct (run_on_ok_inv _ _ _ Hmain) as (g & d & Hg & Hd & Hcols).
  rewrite (run_on_file _ _ _ _ Hg Hd Hcols) in Hmain.
  apply (after_report_outcomes _ _ _ d) in Hmain; [|apply lookup_insert_eq].
  destruct Hmain as (out & Hout & Hfs & _). simpl in Hfs.
  assert (out ≠ p) as Hne.
  { intros ->. apply with_stem_ok_inv in Hout as [_ E].
    apply (f_equal Pathlib.name) in E. rewrite name_snoc in E.
    by apply (cleaned_name_differs p). }
  exists p, g, out. split_and!; try done.
  by rewrite Hfs, lookup_insert_ne.
Qed.

Lemma input_file_is_kept_witness :
  @main stable_argsort iso_date exact_sum plain_renderer plain_reader
    (Some "data/sales.csv") "" sample_world
    = (Ok tt, sample_result)
  ∧ ∃ p g out,
      chosen_path (Some "data/sales.csv") "" = Some p
      ∧ Pathlib.with_stem p (Pathlib.stem p +:+ "_cleaned") = Ok out
      ∧ out ≠ p
      ∧ fs sample_world !! p = Some (File g)
      ∧ fs sample_result !! p = Some (File g).
Proof.
  assert (@main stable_argsort iso_date exact_sum plain_renderer plain_reader
            (Some "data/sales.csv") "" sample_world
          = (Ok tt, sample_result)) as Hrun by (vm_compute; reflexivity).
  split; [exact Hrun|].
  exact (@input_file_is_kept stable_argsort iso_date exact_sum plain_renderer plain_reader
           _ _ _ _ Hrun).
Defined.

(** X14: when the input file has an extension, the output file has the same
    extension, and its stem is the input's stem followed by ["_cleaned"]. *)
Theorem output_keeps_extension (p out : Path) :
  Pathlib.suffix p ≠ "" →
  Pathlib.with_stem p (Pathlib.stem p +:+ "_cleaned") = Ok out →
  Pathlib.suffix out = Pathlib.suffix p
  ∧ Pathlib.stem out = Pathlib.stem p +:+ "_cleaned".
Proof.
  intros Hsuf Hout. apply with_stem_ok_inv in Hout as [_ ->].
  unfold Pathlib.suffix, Pathlib.stem in *. rewrite !name_snoc.
  destruct (Pathlib.suffix_start (Pathlib.name p)) as [i|] eqn:Hstart; [|done].
  set (n := Pathlib.name p) in *.
  unfold Pathlib.suffix_start in Hstart.
  destruct (Pathlib.rfind "." n) as [j|] eqn:Hj; [|done].
  destruct ((0 <? j)%nat && (j <? String.length n - 1)%nat) eqn:Hrange; [|done].
  injection Hstart as <-.
  apply andb_true_iff in Hrange as [_ Hlt%Nat.ltb_lt].
  cbv beta iota.
  set (A := Pathlib.str_take j n +:+ "_cleaned").
  set (B := Pathlib.str_drop j n).
  assert (Pathlib.suffix_start (A +:+ B) = Some (String.length A)) as ->.
  { unfold Pathlib.suffix_start.
    rewrite rfind_app. unfold B at 1. rewrite (rfind_drop _ _ _ Hj).
    rewrite Nat.add_0_r.
    assert ((0 <? String.length A)%nat = true) as ->.
    { apply Nat.ltb_lt. unfold A. rewrite string_length_app. simpl. lia. }
    assert ((String.length A <? String.length (A +:+ B) - 1)%nat = true) as ->.
    { apply Nat.ltb_lt. rewrite string_length_app. unfold B.
      rewrite str_drop_length. lia. }
    done. }
  by rewrite str_drop_app, str_take_app.
Qed.

Lemma output_keeps_extension_witness :
  Pathlib.suffix sales_csv ≠ ""
  ∧ Pathlib.with_stem sales_csv (Pathlib.stem sales_csv +:+ "_cleaned")
    = Ok (Pathlib.of_string "data/sales_cleaned.csv")
  ∧ Pathlib.suffix (Pathlib.of_string "data/sales_cleaned.csv")
    = Pathlib.suffix sales_csv
  ∧ Pathlib.stem (Pathlib.of_string "data/sales_cleaned.csv")
    = Pathlib.stem sales_csv +:+ "_cleaned".
Proof.
  assert (Pathlib.suffix sales_csv ≠ "") as Hs by (vm_compute; discriminate).
  split; [exact Hs|]. split; [reflexivity|].
  exact (output_keeps_extension sales_csv _ Hs eq_refl).
Defined.

(** A name that ends in a dot has no extension; the output name then gets
    one that the input did not have. *)
Example trailing_dot_gains_extension :
  Pathlib.suffix (Pathlib.of_string "notes.") = ""
  ∧ Pathlib.with_stem (Pathlib.of_string "notes.")
      (Pathlib.stem (Pathlib.of_string "notes.") +:+ "_cleaned")
    = Ok (Pathlib.of_string "notes._cleaned")
  ∧ Pathlib.suffix (Pathlib.of_string "notes._cleaned") = "._cleaned".
Proof. split_and!; reflexivity. Qed.

(** ** The working copy of the trend *)

Lemma columns_replace n (s : Series) (l : list (string * Series)) :
  map fst (replace_column n s l) = map fst l.
Proof.
  induction l as [|[c x] l IH]; [done|]. simpl.
  destruct (String.eqb c n) eqn:E; simpl.
  - by apply String.eqb_eq in E as ->.
  - by rewrite IH.
Qed.

Lemma columns_setitem d n s :
  columns (setitem d n s)
  = if has_column d n then columns d else columns d ++ [n].
Proof.
  unfold setitem, columns. destruct (has_column d n); simpl.
  - apply columns_replace.
  - by rewrite map_app.
Qed.

(** X9: the table [monthly_sales_trend] works on is a new object.  Its
    ["Date"] column stands where it stood and holds the converted dates; the
    months are in a column ["Month"], added after the last column, or put in
    the place of a column of that name if the table had one; every other
    column is as in the loaded table. *)
Theorem trend_copy_columns
    `{K : SortKind} `{P : DateParser} `{F : FloatSum} `{R : Renderer}
    (w : World) (r : nat) (d : DataFrame) (date s parsed : Series) :
  heap w !! r = Some d →
  getitem d "Date" = Some date →
  getitem d "Sales" = Some s →
  to_datetime date = Ok parsed →
  ∃ d',
    heap (monthly_sales_trend r w).2 !! fresh (dom (heap w)) = Some d'
    ∧ heap w !! fresh (dom (heap w)) = None
    ∧ columns d' = (if has_column d "Month" then columns d
                    else columns d ++ ["Month"])
    ∧ getitem d' "Date" = Some parsed
    ∧ sdtype parsed = datetime64
    ∧ getitem d' "Month" = Some (months_of parsed)
    ∧ ∀ n, n ≠ "Date" → n ≠ "Month" → getitem d' n = getitem d n.
Proof.
  intros Hr Hd Hs Hparse. exists (trend_frame d parsed). split_and!.
  - rewrite (monthly_sales_trend_columns _ _ _ _ _ Hr Hd Hs), Hparse.
    cbv zeta. destruct (is_numeric_dtype (sdtype s)); [|apply lookup_insert_eq].
    destruct (render _); apply lookup_insert_eq.
  - apply fresh_ref_None.
  - assert (has_column d "Date" = true) as Hdate
      by (apply getitem_has_column; by eexists).
    assert (columns (setitem d "Date" parsed) = columns d) as Hcols
      by (by rewrite columns_setitem, Hdate).
    unfold trend_frame. rewrite columns_setitem.
    unfold has_column at 1. rewrite Hcols. fold (has_column d "Month").
    by destruct (has_column d "Month").
  - unfold trend_frame. rewrite getitem_setitem_ne by done.
    apply getitem_setitem_eq.
  - by eapply to_datetime_dtype.
  - apply getitem_setitem_eq.
  - intros n Hn1 Hn2. unfold trend_frame.
    by rewrite !getitem_setitem_ne.
Qed.

Lemma trend_copy_columns_witness :
  heap loaded_world !! 0%nat = Some sample_frame
  ∧ getitem sample_frame "Date"
    = Some (mkSeries object [Str "2023-01-05"; Str "2023-01-20"; Str "2023-02-01"])
  ∧ getitem sample_frame "Sales" = Some (mkSeries int64 [Num 10; Num 5; Num 3])
  ∧ @to_datetime iso_date
      (mkSeries object [Str "2023-01-05"; Str "2023-01-20"; Str "2023-02-01"])
    = Ok (mkSeries datetime64
            [Stamp (mkDatetime 2023 1 5 0); Stamp (mkDatetime 2023 1 20 0);
             Stamp (mkDatetime 2023 2 1 0)])
  ∧ ∃ d',
      heap (@monthly_sales_trend iso_date exact_sum plain_renderer
              0%nat loaded_world).2
        !! fresh (dom (heap loaded_world)) = Some d'
      ∧ heap loaded_world !! fresh (dom (heap loaded_world)) = None
      ∧ columns d' = (if has_column sample_frame "Month" then columns sample_frame
                      else columns sample_frame ++ ["Month"])
      ∧ getitem d' "Date"
        = Some (mkSeries datetime64
                  [Stamp (mkDatetime 2023 1 5 0); Stamp (mkDatetime 2023 1 20 0);
                   Stamp (mkDatetime 2023 2 1 0)])
      ∧ sdtype (mkSeries datetime64
                  [Stamp (mkDatetime 2023 1 5 0); Stamp (mkDatetime 2023 1 20 0);
                   Stamp (mkDatetime 2023 2 1 0)]) = datetime64
      ∧ getitem d' "Month"
        = Some (months_of (mkSeries datetime64
                  [Stamp (mkDatetime 2023 1 5 0); Stamp (mkDatetime 2023 1 20 0);
                   Stamp (mkDatetime 2023 2 1 0)]))
      ∧ ∀ n, n ≠ "Date" → n ≠ "Month" → getitem d' n = getitem sample_frame n.
Proof.
  assert (heap loaded_world !! 0%nat = Some sample_frame) as Hr
    by (vm_compute; reflexivity).
  split; [exact Hr|]. split; [reflexivity|]. split; [reflexivity|].
  split; [reflexivity|].
  exact (@trend_copy_columns stable_argsort iso_date exact_sum plain_renderer
           loaded_world 0%nat
           sample_frame _ _ _ Hr eq_refl eq_refl eq_refl).
Defined.

Lemma distinct_totals_fix_the_order_witness :
  NoDup (map snd (@groupby_sum exact_sum int64 [Str "A"; Str "B"; Str "A"]
                                               [Num 10; Num 5; Num 3]))
  ∧ @product_totals stable_argsort exact_sum
      (mkSeries object [Str "A"; Str "B"; Str "A"])
      (mkSeries int64 [Num 10; Num 5; Num 3])
    = @product_totals reversing_argsort exact_sum
        (mkSeries object [Str "A"; Str "B"; Str "A"])
        (mkSeries int64 [Num 10; Num 5; Num 3]).
Proof.
  assert (NoDup (map snd (@groupby_sum exact_sum int64 [Str "A"; Str "B"; Str "A"]
                                                       [Num 10; Num 5; Num 3])))
    as Hnd.
  { apply (bool_decide_unpack _). vm_compute. exact I. }
  split; [exact Hnd|].
  exact (@distinct_totals_fix_the_order stable_argsort reversing_argsort _ _
           exact_sum
           (mkSeries object [Str "A"; Str "B"; Str "A"])
           (mkSeries int64 [Num 10; Num 5; Num 3]) Hnd).
Defined.

(** ** The aggregations and the files *)

(** X10: neither aggregation touches the file system, on any outcome, and
    neither takes back anything already printed or shown: what is on screen
    after the call is what was there before, followed by what the call
    added. *)
Theorem aggregations_leave_files
    `{K : SortKind} `{P : DateParser} `{F : FloatSum} `{R : Renderer}
    (r : nat) (w : World) :
  (fs (sales_by_product r w).2 = fs w
   ∧ ∃ evs, trace (sales_by_product r w).2 = trace w ++ evs)
  ∧ (fs (monthly_sales_trend r w).2 = fs w
     ∧ ∃ evs, trace (monthly_sales_trend r w).2 = trace w ++ evs).
Proof.
  split.
  - destruct (sales_by_product_frame r w) as (res & evs & ->). simpl.
    split; [done|by exists evs].
  - destruct (monthly_sales_trend_frame r w) as (res & h' & evs & -> & _). simpl.
    split; [done|by exists evs].
Qed.
